(** * component-base/log: a shallow embedding of the logging package

    The development follows the Go sources of [kusionstack.io/component-base]:
    - the severity model and [Options] (options.go),
    - the timestamp encoder [formatDate], [prepZap], [updateLogger] and
      [Configure] (config.go),
    - the [logger] methods and [output] (logger.go).

    Go [int] and [int32] values are integers of [Z]; [/] and [%] on them are
    [Z.quot] and [Z.rem] (Go truncates towards zero); a [byte] is an integer
    in [0, 256) with wrap-around written out.  Go maps are [gmap]s. *)

From Stdlib Require Import ZArith Lia.
From stdpp Require Import base option list gmap strings.

Local Open Scope Z_scope.

(** ** Severity model (options.go) *)

Module Severity.

(** [type Level int32]: every 32-bit integer is a [Level]; the six named
    ones are the [iota] constants. *)
Abbreviation Level := Z (only parsing).

Definition NoneLevel : Level := 0.
Definition FatalLevel : Level := 1.
Definition ErrorLevel : Level := 2.
Definition WarnLevel : Level := 3.
Definition InfoLevel : Level := 4.
Definition DebugLevel : Level := 5.

Definition levelToString : gmap Z string :=
  list_to_map
    [ (DebugLevel, "debug"%string); (InfoLevel, "info"%string);
      (WarnLevel, "warn"%string); (ErrorLevel, "error"%string);
      (FatalLevel, "fatal"%string); (NoneLevel, "none"%string) ].

Definition stringToLevel : gmap string Z :=
  list_to_map
    [ ("debug"%string, DebugLevel); ("info"%string, InfoLevel);
      ("warn"%string, WarnLevel); ("error"%string, ErrorLevel);
      ("fatal"%string, FatalLevel); ("none"%string, NoneLevel) ].

(** zapcore's own severities: [DebugLevel = -1], [InfoLevel = 0], ...,
    [FatalLevel = 5] ([type Level int8] in zapcore). *)
Module zapcore.
Definition DebugLevel : Z := -1.
Definition InfoLevel : Z := 0.
Definition WarnLevel : Z := 1.
Definition ErrorLevel : Z := 2.
Definition DPanicLevel : Z := 3.
Definition PanicLevel : Z := 4.
Definition FatalLevel : Z := 5.
End zapcore.

Definition toLevel : gmap Z Z :=
  list_to_map
    [ (zapcore.FatalLevel, FatalLevel); (zapcore.ErrorLevel, ErrorLevel);
      (zapcore.WarnLevel, WarnLevel); (zapcore.InfoLevel, InfoLevel);
      (zapcore.DebugLevel, DebugLevel) ].

Definition levelToZap : gmap Z Z :=
  list_to_map
    [ (DebugLevel, zapcore.DebugLevel); (InfoLevel, zapcore.InfoLevel);
      (WarnLevel, zapcore.WarnLevel); (ErrorLevel, zapcore.ErrorLevel);
      (FatalLevel, zapcore.FatalLevel) ].

Definition levelListString : list string :=
  [ "debug"; "info"; "warn"; "error"; "fatal"; "none" ]%string.

(** The six levels the package names. *)
Definition validLevels : list Z :=
  [ NoneLevel; FatalLevel; ErrorLevel; WarnLevel; InfoLevel; DebugLevel ].

(** [m[k]] without the comma-ok form yields the zero value on a miss. *)
Definition index_string (m : gmap Z string) (k : Z) : string :=
  default ""%string (m !! k).
Definition index_level (m : gmap Z Z) (k : Z) : Z :=
  default 0 (m !! k).

End Severity.
Import Severity.

(** ** Options (options.go) *)

Definition DefaultLoggerName : string := "default".
Definition DefaultOutputLevel : Z := InfoLevel.
Definition DefaultStackTraceLevel : Z := NoneLevel.
Definition DefaultOutputPath : string := "stdout".
Definition DefaultErrorOutputPath : string := "stderr".
Definition DefaultRotationMaxAge : Z := 30.
Definition DefaultRotationMaxSize : Z := 100 * 1024 * 1024.
Definition DefaultRotationMaxBackups : Z := 1000.

Record Options := mkOptions {
  OutputPath : string;
  ErrorOutputPath : string;
  RotateOutputPath : string;
  (** "the maximum size in megabytes of a log file before it gets rotated.
      It defaults to 100 megabytes." *)
  RotationMaxSize : Z;
  RotationMaxAge : Z;
  RotationMaxBackups : Z;
  JSONEncoding : bool;
  OutputLevel : string;
  StackTraceLevel : string;
  LogCaller : bool
}.

(** Fields the composite literal leaves out take their zero value. *)
Definition DefaultOptions : Options :=
  {| OutputPath := DefaultOutputPath;
     ErrorOutputPath := DefaultErrorOutputPath;
     RotateOutputPath := "";
     RotationMaxSize := DefaultRotationMaxSize;
     RotationMaxAge := DefaultRotationMaxAge;
     RotationMaxBackups := DefaultRotationMaxBackups;
     JSONEncoding := false;
     OutputLevel := index_string levelToString InfoLevel;
     StackTraceLevel := index_string levelToString NoneLevel;
     LogCaller := false |}.

(** lumberjack.v2's [Logger]: [MaxSize] "is the maximum size in megabytes of
    the log file before it gets rotated" and the writer compares the file
    size with [MaxSize * 1024 * 1024] bytes ([defaultMaxSize = 100] stands in
    for [MaxSize = 0]). *)
Record lumberjack_Logger := mkLumberjack {
  Filename : string;
  MaxSize : Z;
  MaxBackups : Z;
  MaxAge : Z
}.

Definition megabyte : Z := 1024 * 1024.

Definition lumberjack_max (l : lumberjack_Logger) : Z :=
  if MaxSize l =? 0 then 100 * megabyte else MaxSize l * megabyte.

(** ** The timestamp encoder (config.go) *)

(** A [time.Time] is kept as the civil reading of its instant in UTC, which
    is what [t.UTC()] followed by [Date()], [Clock()] and [Nanosecond()]
    hands to [formatDate]; the location of the original value plays no part
    after [t.UTC()]. *)
Record Time := mkTime {
  t_year : Z;
  t_month : Z;
  t_day : Z;
  t_hour : Z;
  t_minute : Z;
  t_second : Z;
  t_nanosecond : Z
}.

(** The ranges the [time] package guarantees for these accessors; the year
    is any [int]. *)
Definition wf_time (t : Time) : Prop :=
  1 <= t_month t <= 12 /\ 1 <= t_day t <= 31 /\
  0 <= t_hour t <= 23 /\ 0 <= t_minute t <= 59 /\ 0 <= t_second t <= 59 /\
  0 <= t_nanosecond t <= 999999999.

(** [byte(x)] of a non-constant integer keeps the low eight bits. *)
Definition byte_of_int (x : Z) : Z := x mod 256.
(** [b + '0'] on bytes wraps at 256. *)
Definition byte_add (a b : Z) : Z := (a + b) mod 256.

Definition chr (c : string) : Z :=
  match c with
  | String a _ => Z.of_N (Ascii.N_of_ascii a)
  | EmptyString => 0
  end.

Definition string_of_bytes (buf : list Z) : string :=
  fold_right (fun b s => String (Ascii.ascii_of_N (Z.to_N b)) s) EmptyString buf.

Definition formatDate_buf (t : Time) : list Z :=
  let year := t_year t in
  let month := t_month t in
  let day := t_day t in
  let hour := t_hour t in
  let minute := t_minute t in
  let second := t_second t in
  let micros := Z.quot (t_nanosecond t) 1000 in
  let buf := replicate 27 0 in
  let buf := <[0%nat := byte_add (byte_of_int (Z.rem (Z.quot year 1000) 10)) (chr "0")]> buf in
  let buf := <[1%nat := byte_add (byte_of_int (Z.rem (Z.quot year 100) 10)) (chr "0")]> buf in
  let buf := <[2%nat := byte_add (byte_of_int (Z.rem (Z.quot year 10) 10)) (chr "0")]> buf in
  let buf := <[3%nat := byte_add (byte_of_int (Z.rem year 10)) (chr "0")]> buf in
  let buf := <[4%nat := chr "-"]> buf in
  let buf := <[5%nat := byte_add (byte_of_int (Z.quot month 10)) (chr "0")]> buf in
  let buf := <[6%nat := byte_add (byte_of_int (Z.rem month 10)) (chr "0")]> buf in
  let buf := <[7%nat := chr "-"]> buf in
  let buf := <[8%nat := byte_add (byte_of_int (Z.quot day 10)) (chr "0")]> buf in
  let buf := <[9%nat := byte_add (byte_of_int (Z.rem day 10)) (chr "0")]> buf in
  let buf := <[10%nat := chr "T"]> buf in
  let buf := <[11%nat := byte_add (byte_of_int (Z.quot hour 10)) (chr "0")]> buf in
  let buf := <[12%nat := byte_add (byte_of_int (Z.rem hour 10)) (chr "0")]> buf in
  let buf := <[13%nat := chr ":"]> buf in
  let buf := <[14%nat := byte_add (byte_of_int (Z.quot minute 10)) (chr "0")]> buf in
  let buf := <[15%nat := byte_add (byte_of_int (Z.rem minute 10)) (chr "0")]> buf in
  let buf := <[16%nat := chr ":"]> buf in
  let buf := <[17%nat := byte_add (byte_of_int (Z.quot second 10)) (chr "0")]> buf in
  let buf := <[18%nat := byte_add (byte_of_int (Z.rem second 10)) (chr "0")]> buf in
  let buf := <[19%nat := chr "."]> buf in
  let buf := <[20%nat := byte_add (byte_of_int (Z.rem (Z.quot micros 100000) 10)) (chr "0")]> buf in
  let buf := <[21%nat := byte_add (byte_of_int (Z.rem (Z.quot micros 10000) 10)) (chr "0")]> buf in
  let buf := <[22%nat := byte_add (byte_of_int (Z.rem (Z.quot micros 1000) 10)) (chr "0")]> buf in
  let buf := <[23%nat := byte_add (byte_of_int (Z.rem (Z.quot micros 100) 10)) (chr "0")]> buf in
  let buf := <[24%nat := byte_add (byte_of_int (Z.rem (Z.quot micros 10) 10)) (chr "0")]> buf in
  let buf := <[25%nat := byte_add (byte_of_int (Z.rem micros 10)) (chr "0")]> buf in
  let buf := <[26%nat := chr "Z"]> buf in
  buf.

(** [enc.AppendString(string(buf))]: the string handed to the encoder. *)
Definition formatDate (t : Time) : string := string_of_bytes (formatDate_buf t).

(** The layout [YYYY-MM-DDTHH:MM:SS.mmmmmmZ] on a byte buffer: 27 bytes,
    ASCII digits at the digit positions and the literal separators. *)
Definition is_digit (b : Z) : bool := (chr "0" <=? b) && (b <=? chr "9").

Definition layout : list (option Z) :=
  let d := None in
  let c (s : string) := Some (chr s) in
  [ d; d; d; d; c "-"; d; d; c "-"; d; d; c "T"; d; d; c ":"; d; d; c ":";
    d; d; c "."; d; d; d; d; d; d; c "Z" ].

Fixpoint matches_layout (lay : list (option Z)) (buf : list Z) : bool :=
  match lay, buf with
  | [], [] => true
  | None :: lay', b :: buf' => is_digit b && matches_layout lay' buf'
  | Some c :: lay', b :: buf' => (b =? c) && matches_layout lay' buf'
  | _, _ => false
  end.

Definition is_timestamp_form (buf : list Z) : bool := matches_layout layout buf.

(** [width] decimal digits of [n], most significant first, as ASCII bytes:
    the zero-padded rendering the layout asks for. *)
Fixpoint decimal (width : nat) (n : Z) : list Z :=
  match width with
  | O => []
  | S w => decimal w (n / 10) ++ [chr "0" + n mod 10]
  end.

(** The value a run of ASCII digits denotes. *)
Definition digits_value (ds : list Z) : Z :=
  fold_left (fun acc d => 10 * acc + (d - chr "0")) ds 0.

(** The rendering named by the layout, for a time in UTC. *)
Definition render_utc (t : Time) : list Z :=
  decimal 4 (t_year t) ++ [chr "-"] ++ decimal 2 (t_month t) ++ [chr "-"] ++
  decimal 2 (t_day t) ++ [chr "T"] ++ decimal 2 (t_hour t) ++ [chr ":"] ++
  decimal 2 (t_minute t) ++ [chr ":"] ++ decimal 2 (t_second t) ++ [chr "."] ++
  decimal 6 (t_nanosecond t / 1000) ++ [chr "Z"].


(** ** Collaborators: zap, the file system, the Go runtime *)

(** A Go [error] is kept as its message; [None] is [nil]. *)
Abbreviation error := (option string) (only parsing).

(** [zapcore.NewJSONEncoder(encCfg)] or [zapcore.NewConsoleEncoder(encCfg)],
    both over [defaultEncoderConfig] (whose [EncodeTime] is [formatDate]). *)
Inductive Encoder := JSONEncoder | ConsoleEncoder.

Inductive WriteSyncer :=
| OpenedSink (path : string)              (* what [zap.Open(path)] returned *)
| RotaterSink (l : lumberjack_Logger)     (* [zapcore.AddSync(&lumberjack.Logger{...})] *)
| MultiWriteSyncer (a b : WriteSyncer).   (* [zapcore.NewMultiWriteSyncer(a, b)] *)

(** The two enablers [prepZap] uses: [zap.NewAtomicLevelAt(lvl)] and the
    closure that asks [defaultLogger] at every call. *)
Inductive LevelEnabler := AtomicLevelAt (lvl : Z) | LoggerEnabler.

(** [zapcore.NewCore(enc, sink, enab)]; [core_out] is [None] for a nil
    [WriteSyncer]. *)
Record Core := mkCore {
  core_enc : Encoder;
  core_out : option WriteSyncer;
  core_enab : LevelEnabler
}.

Record EntryCaller := mkEntryCaller {
  ec_Defined : bool;
  ec_File : string;
  ec_Line : Z
}.

Record Entry := mkEntry {
  ent_Level : Z;
  ent_Time : Time;
  ent_LoggerName : string;
  ent_Message : string;
  ent_Caller : EntryCaller;
  ent_Stack : string
}.

(** The process-exit function stored in the table: [os.Exit], which ends the
    process, or a replacement that returns (the tests install one). *)
Inductive exitFunc := os_Exit | returning_exit (id : nat).

(** [functionTable]: [write], [sync] and [close] are [nil] or the closures
    [Configure] builds over its [baseLogger]; they are kept as that core. *)
Record functionTable := mkFunctionTable {
  write : option Core;
  sync : option Core;
  exitProcess : exitFunc;
  errorSink : WriteSyncer;
  close : option Core
}.

(** [logger]: an [atomic.Value] nothing was stored in yet is [None]. *)
Record logger := mkLogger {
  name : string;
  callerSkip : Z;
  outputLevel : option Z;
  stackTraceLevel : option Z;
  logCallers : option bool
}.

Inductive zapOption :=
| ErrorOutput (s : WriteSyncer)
| AddCallerSkip (n : Z)
| AddCaller
| AddStacktrace (lvl : Z).

(** [zap.New(core, options...)]. *)
Record zapLogger := mkZapLogger {
  zl_core : Core;
  zl_options : list zapOption
}.

(** What a run does to the outside, in order. *)
Inductive event :=
| EvOpen (path : string) (err : option string)          (* [zap.Open(path)] *)
| EvCloseSink (s : WriteSyncer)                         (* the close function of [zap.Open] *)
| EvCoreWrite (c : Core) (e : Entry) (err : option string) (* [core.Write(ent, fields)] *)
| EvExit (f : exitFunc) (code : Z)                      (* [exitProcess(code)] *)
| EvErrorSinkPrint (s : WriteSyncer) (now : Time) (err : string)
                                                        (* [Fprintf(s, "%v log write error: %v\n", now, err)] *)
| EvErrorSinkSync (s : WriteSyncer).                    (* [s.Sync()] *)

Inductive status := Running | Exited (code : Z) | Panicked.

(** The package-level state and the effects so far: [funcs] (an
    [atomic.Value]), [defaultLogger], zap's globals and the redirected
    standard [log] package, the events, and whether the process still runs. *)
Record world := mkWorld {
  funcs : option functionTable;
  defaultLogger : option logger;
  zap_globals : option zapLogger;
  std_log : option zapLogger;
  trace : list event;
  st : status
}.

(** What the package asks of its surroundings.  The oracles that can answer
    differently over time take the number of events so far. *)
Record Runtime (any : Type) := mkRuntime {
  fmt_Sprint : any -> string;
  fmt_Sprintf : string -> list any -> string;
  time_Now : nat -> Time;
  runtime_Caller : Z -> EntryCaller;
  zap_Stack : nat -> string;
  open_error : nat -> string -> option string;
  write_error : nat -> Core -> Entry -> option string
}.
Arguments fmt_Sprint {any} _ _.
Arguments fmt_Sprintf {any} _ _ _.
Arguments time_Now {any} _ _.
Arguments runtime_Caller {any} _ _.
Arguments zap_Stack {any} _ _.
Arguments open_error {any} _ _ _.
Arguments write_error {any} _ _ _ _.

Definition with_trace (w : world) (tr : list event) : world :=
  mkWorld (funcs w) (defaultLogger w) (zap_globals w) (std_log w) tr (st w).
Definition with_status (w : world) (s : status) : world :=
  mkWorld (funcs w) (defaultLogger w) (zap_globals w) (std_log w) (trace w) s.
Definition with_funcs (w : world) (ft : functionTable) : world :=
  mkWorld (Some ft) (defaultLogger w) (zap_globals w) (std_log w) (trace w) (st w).
Definition with_defaultLogger (w : world) (l : logger) : world :=
  mkWorld (funcs w) (Some l) (zap_globals w) (std_log w) (trace w) (st w).
Definition with_zap (w : world) (z : zapLogger) : world :=
  mkWorld (funcs w) (defaultLogger w) (Some z) (Some z) (trace w) (st w).

Definition emit (ev : event) (w : world) : world := with_trace w (trace w ++ [ev]).
Definition panic (w : world) : world := with_status w Panicked.

Definition is_running (w : world) : bool :=
  match st w with Running => true | _ => false end.

(** ** The logger (logger.go) *)

Definition callerSkipOffset : Z := 3.

Definition SetOutputLevel (l : logger) (level : Z) : logger :=
  mkLogger (name l) (callerSkip l) (Some level) (stackTraceLevel l) (logCallers l).
Definition SetStackTraceLevel (l : logger) (level : Z) : logger :=
  mkLogger (name l) (callerSkip l) (outputLevel l) (Some level) (logCallers l).
Definition SetLogCallers (l : logger) (b : bool) : logger :=
  mkLogger (name l) (callerSkip l) (outputLevel l) (stackTraceLevel l) (Some b).

(** [l.outputLevel.Load().(Level)] and its siblings: the type assertion
    panics on an empty [atomic.Value], which is the [None] here. *)
Definition GetOutputLevel (l : logger) : option Z := outputLevel l.
Definition GetStackTraceLevel (l : logger) : option Z := stackTraceLevel l.
Definition GetLogCallers (l : logger) : option bool := logCallers l.

(** [return l.GetOutputLevel() >= XLevel] *)
Definition enabled_at (required : Z) (l : logger) : option bool :=
  (fun lvl => lvl >=? required) <$> GetOutputLevel l.

Definition InfoEnabled : logger -> option bool := enabled_at InfoLevel.
Definition DebugEnabled : logger -> option bool := enabled_at DebugLevel.
Definition WarnEnabled : logger -> option bool := enabled_at WarnLevel.
Definition ErrorEnabled : logger -> option bool := enabled_at ErrorLevel.
Definition FatalEnabled : logger -> option bool := enabled_at FatalLevel.

Section Logging.

Context {any : Type} (rt : Runtime any).

Definition maybeSprintf (format : string) (args : list any) : string :=
  let msg := format in
  if (0 <? length args)%nat then fmt_Sprintf rt format args else msg.

(** [exitProcess(code)]: [os.Exit] does not return. *)
Definition call_exit (f : exitFunc) (code : Z) (w : world) : world :=
  let w := emit (EvExit f code) w in
  match f with
  | os_Exit => with_status w (Exited code)
  | returning_exit _ => w
  end.

(** [core.Write(ent, fields)] on an [ioCore]: encode and write to the sink;
    a nil sink is a nil-interface call. *)
Definition Core_Write (c : Core) (ent : Entry) (w : world) : world * error :=
  match core_out c with
  | None => (panic w, None)
  | Some _ =>
      let err := write_error rt (length (trace w)) c ent in
      (emit (EvCoreWrite c ent err) w, err)
  end.

(** The [write] closure of [Configure]'s function table. *)
Definition table_write (baseLogger : Core) (ent : Entry) (w : world) : world * error :=
  let '(w, err) := Core_Write baseLogger ent w in
  if is_running w then
    if ent_Level ent =? zapcore.FatalLevel then
      match funcs w with
      | Some ft => (call_exit (exitProcess ft) 1 w, err)
      | None => (panic w, err)
      end
    else (w, err)
  else (w, err).

Definition with_LoggerName (e : Entry) (n : string) : Entry :=
  mkEntry (ent_Level e) (ent_Time e) n (ent_Message e) (ent_Caller e) (ent_Stack e).
Definition with_Caller (e : Entry) (c : EntryCaller) : Entry :=
  mkEntry (ent_Level e) (ent_Time e) (ent_LoggerName e) (ent_Message e) c (ent_Stack e).
Definition with_Stack (e : Entry) (s : string) : Entry :=
  mkEntry (ent_Level e) (ent_Time e) (ent_LoggerName e) (ent_Message e) (ent_Caller e) s.

(** The entry [output] assembles before it loads the function table; [None]
    when one of the loads from the logger panics. *)
Definition build_entry (l : logger) (level : Z) (msg : string) (w : world) : option Entry :=
  let e := mkEntry level (time_Now rt (length (trace w))) "" msg (mkEntryCaller false "" 0) "" in
  let e := if decide (name l = DefaultLoggerName) then e else with_LoggerName e (name l) in
  lc ← GetLogCallers l;
  let e := if (lc : bool) then with_Caller e (runtime_Caller rt (callerSkip l + callerSkipOffset)) else e in
  let thresh := index_level toLevel level in
  stl ← GetStackTraceLevel l;
  Some (if stl >=? thresh then with_Stack e (zap_Stack rt (length (trace w))) else e).

(** [output] writes the data to the log files. *)
Definition output (l : logger) (level : Z) (msg : string) (w : world) : world :=
  match build_entry l level msg w with
  | None => panic w
  | Some e =>
      match funcs w with
      | None => panic w
      | Some ft =>
          match write ft with
          | None => w
          | Some baseLogger =>
              let '(w1, err) := table_write baseLogger e w in
              if is_running w1 then
                match err with
                | Some msg_err =>
                    let w2 := emit (EvErrorSinkPrint (errorSink ft)
                                      (time_Now rt (length (trace w1))) msg_err) w1 in
                    emit (EvErrorSinkSync (errorSink ft)) w2
                | None => w1
                end
              else w1
          end
      end
  end.

(** The shape of every level method:
    [if l.GetOutputLevel() >= required { l.output(level, msg) }];
    a process that has ended runs nothing. *)
Definition log_at (required level : Z) (l : logger) (msg : string) (w : world) : world :=
  if is_running w then
    match GetOutputLevel l with
    | None => panic w
    | Some cur => if cur >=? required then output l level msg w else w
    end
  else w.

Definition Info (l : logger) (field : any) : world -> world :=
  log_at InfoLevel zapcore.InfoLevel l (fmt_Sprint rt field).
Definition Infof (l : logger) (format : string) (fields : list any) : world -> world :=
  log_at InfoLevel zapcore.InfoLevel l (maybeSprintf format fields).
Definition Debug (l : logger) (field : any) : world -> world :=
  log_at DebugLevel zapcore.DebugLevel l (fmt_Sprint rt field).
Definition Debugf (l : logger) (format : string) (fields : list any) : world -> world :=
  log_at DebugLevel zapcore.DebugLevel l (maybeSprintf format fields).
Definition Warn (l : logger) (field : any) : world -> world :=
  log_at WarnLevel zapcore.WarnLevel l (fmt_Sprint rt field).
Definition Warnf (l : logger) (format : string) (fields : list any) : world -> world :=
  log_at WarnLevel zapcore.WarnLevel l (maybeSprintf format fields).
Definition Error (l : logger) (field : any) : world -> world :=
  log_at ErrorLevel zapcore.ErrorLevel l (fmt_Sprint rt field).
Definition Errorf (l : logger) (format : string) (fields : list any) : world -> world :=
  log_at ErrorLevel zapcore.ErrorLevel l (maybeSprintf format fields).
Definition Fatal (l : logger) (field : any) : world -> world :=
  log_at FatalLevel zapcore.FatalLevel l (fmt_Sprint rt field).
Definition Fatalf (l : logger) (format : string) (fields : list any) : world -> world :=
  log_at FatalLevel zapcore.FatalLevel l (maybeSprintf format fields).

(** Every call of a level method, as data: which method and its arguments. *)
Inductive call :=
| CallDebug (field : any)
| CallDebugf (format : string) (fields : list any)
| CallInfo (field : any)
| CallInfof (format : string) (fields : list any)
| CallWarn (field : any)
| CallWarnf (format : string) (fields : list any)
| CallError (field : any)
| CallErrorf (format : string) (fields : list any)
| CallFatal (field : any)
| CallFatalf (format : string) (fields : list any).

Definition run_call (l : logger) (c : call) : world -> world :=
  match c with
  | CallDebug field => Debug l field
  | CallDebugf format fields => Debugf l format fields
  | CallInfo field => Info l field
  | CallInfof format fields => Infof l format fields
  | CallWarn field => Warn l field
  | CallWarnf format fields => Warnf l format fields
  | CallError field => Error l field
  | CallErrorf format fields => Errorf l format fields
  | CallFatal field => Fatal l field
  | CallFatalf format fields => Fatalf l format fields
  end.

(** The severity a call logs at, and the query that belongs to it. *)
Definition call_level (c : call) : Z :=
  match c with
  | CallDebug _ | CallDebugf _ _ => DebugLevel
  | CallInfo _ | CallInfof _ _ => InfoLevel
  | CallWarn _ | CallWarnf _ _ => WarnLevel
  | CallError _ | CallErrorf _ _ => ErrorLevel
  | CallFatal _ | CallFatalf _ _ => FatalLevel
  end.

Definition call_enabled (l : logger) (c : call) : option bool :=
  match c with
  | CallDebug _ | CallDebugf _ _ => DebugEnabled l
  | CallInfo _ | CallInfof _ _ => InfoEnabled l
  | CallWarn _ | CallWarnf _ _ => WarnEnabled l
  | CallError _ | CallErrorf _ _ => ErrorEnabled l
  | CallFatal _ | CallFatalf _ _ => FatalEnabled l
  end.

(** zap's severity for a call, and the message it hands to [output]. *)
Definition call_zap_level (c : call) : Z :=
  match c with
  | CallDebug _ | CallDebugf _ _ => zapcore.DebugLevel
  | CallInfo _ | CallInfof _ _ => zapcore.InfoLevel
  | CallWarn _ | CallWarnf _ _ => zapcore.WarnLevel
  | CallError _ | CallErrorf _ _ => zapcore.ErrorLevel
  | CallFatal _ | CallFatalf _ _ => zapcore.FatalLevel
  end.

Definition call_message (c : call) : string :=
  match c with
  | CallDebug field | CallInfo field | CallWarn field
  | CallError field | CallFatal field => fmt_Sprint rt field
  | CallDebugf format fields | CallInfof format fields | CallWarnf format fields
  | CallErrorf format fields | CallFatalf format fields => maybeSprintf format fields
  end.

(** ** Sink assembly and configuration (config.go) *)

(** [zap.Open(path)]: the names [stdout] and [stderr] are the standard
    streams and always open; any other path is a file the system may refuse. *)
Definition zap_Open (path : string) (w : world) : world * (WriteSyncer + string) :=
  let err :=
    if decide (path = "stdout"%string \/ path = "stderr"%string) then None
    else open_error rt (length (trace w)) path in
  let w := emit (EvOpen path err) w in
  match err with
  | None => (w, inl (OpenedSink path))
  | Some e => (w, inr e)
  end.

(** [prepZap] sets up the core Zap loggers.  The second core of the result is
    the one the returned builder makes when called. *)
Definition prepZap (options : Options) (w : world)
  : world * (Core * Core * WriteSyncer + string) :=
  let enc := if JSONEncoding options then JSONEncoder else ConsoleEncoder in
  let rotaterSink :=
    if decide (RotateOutputPath options = ""%string) then None
    else Some (RotaterSink
                 {| Filename := RotateOutputPath options;
                    MaxSize := RotationMaxSize options;
                    MaxBackups := RotationMaxBackups options;
                    MaxAge := RotationMaxAge options |}) in
  match zap_Open (OutputPath options) w with
  | (w, inr err) => (w, inr err)
  | (w, inl errSink) =>
      let closeErrorSink := emit (EvCloseSink errSink) in
      let opened :=
        if (0 <? String.length (OutputPath options))%nat then
          match zap_Open (OutputPath options) w with
          | (w, inr err) => (closeErrorSink w, inr err)
          | (w, inl s) => (w, inl (Some s))
          end
        else (w, inl None) in
      match opened with
      | (w, inr err) => (w, inr err)
      | (w, inl outputSink) =>
          let sink :=
            match rotaterSink, outputSink with
            | Some r, Some o => Some (MultiWriteSyncer o r)
            | Some r, None => Some r
            | None, _ => outputSink
            end in
          let alwaysOn := mkCore enc sink (AtomicLevelAt zapcore.DebugLevel) in
          let conditionallyOn := mkCore enc sink LoggerEnabler in
          (w, inl (alwaysOn, conditionallyOn, errSink))
      end
  end.

(** The enabler closure of [conditionallyOn], read against the world it
    runs in ([None]: the call panics). *)
Definition logger_enabler (w : world) (lvl : Z) : option bool :=
  l ← defaultLogger w;
  if lvl =? zapcore.ErrorLevel then ErrorEnabled l
  else if lvl =? zapcore.WarnLevel then WarnEnabled l
  else if lvl =? zapcore.InfoLevel then InfoEnabled l
  else DebugEnabled l.

Definition updateLogger (opts : Options) (w : world) : world * error :=
  let l :=
    match defaultLogger w with
    | None => mkLogger "" 1 None None None
    | Some l => l
    end in
  match stringToLevel !! OutputLevel opts with
  | None =>
      (with_defaultLogger w l,
       Some ("invalid output level '" +:+ OutputLevel opts +:+ "'"))
  | Some level =>
      let l := SetOutputLevel l level in
      if (String.length (StackTraceLevel opts) =? 0)%nat then
        (with_defaultLogger w (SetLogCallers l (LogCaller opts)), None)
      else
        match stringToLevel !! StackTraceLevel opts with
        | None =>
            (with_defaultLogger w l,
             Some ("invalid stack trace level '" +:+ OutputLevel opts +:+ "'"))
        | Some stackTraceLevel =>
            let l := SetStackTraceLevel l stackTraceLevel in
            (with_defaultLogger w (SetLogCallers l (LogCaller opts)), None)
        end
  end.

(** [Configure] initializes a functional logging subsystem.  On a world
    that panics the returned error means nothing. *)
Definition Configure (opts : Options) (w : world) : world * error :=
  if is_running w then
    match updateLogger opts w with
    | (w, Some err) => (w, Some err)
    | (w, None) =>
        match prepZap opts w with
        | (w, inr err) => (w, Some err)
        | (w, inl (baseLogger, logBuilder, errSink)) =>
            let ft :=
              {| write := Some baseLogger;
                 sync := Some baseLogger;
                 exitProcess := os_Exit;
                 errorSink := errSink;
                 close := Some baseLogger |} in
            let w := with_funcs w ft in
            let zapOptions := [ErrorOutput errSink; AddCallerSkip 1] in
            match defaultLogger w with
            | None => (panic w, None)
            | Some dl =>
                match GetLogCallers dl with
                | None => (panic w, None)
                | Some lc =>
                    let zapOptions :=
                      if (lc : bool) then zapOptions ++ [AddCaller] else zapOptions in
                    match GetStackTraceLevel dl with
                    | None => (panic w, None)
                    | Some l =>
                        let zapOptions :=
                          if l =? NoneLevel then zapOptions
                          else zapOptions ++ [AddStacktrace (index_level levelToZap l)] in
                        let defaultZapLogger := mkZapLogger logBuilder zapOptions in
                        (with_zap w defaultZapLogger, None)
                    end
                end
            end
        end
    end
  else (w, None).

End Logging.

(** ** Observations on a run *)

(** The entries that reached a core, and the exits asked for, in order. *)
Definition emitted (w : world) : list Entry :=
  omap (fun ev => match ev with EvCoreWrite _ e _ => Some e | _ => None end) (trace w).

Definition exits (w : world) : list (exitFunc * Z) :=
  omap (fun ev => match ev with EvExit f code => Some (f, code) | _ => None end) (trace w).

(** All three settings of the logger have been stored. *)
Definition stored (l : logger) : Prop :=
  is_Some (outputLevel l) /\ is_Some (stackTraceLevel l) /\ is_Some (logCallers l).

(** The registry holds the table [ft], whose [write] goes to the core
    [baseLogger] over an actual sink: what [Configure] leaves behind,
    whatever [exitProcess] was put into it afterwards. *)
Definition installed (w : world) (ft : functionTable) (baseLogger : Core) : Prop :=
  funcs w = Some ft /\ write ft = Some baseLogger /\ is_Some (core_out baseLogger).

(** ** Examples *)

(** Times on either side of the four-digit years, and an ordinary one. *)
Definition year_minus_one : Time := mkTime (-1) 1 1 0 0 0 0.
Definition year_ten_thousand : Time := mkTime 10000 1 1 0 0 0 0.
Definition release_time : Time := mkTime 2024 3 7 9 5 59 123456789.

(** The state before the package's [init] has run. *)
Definition boot : world := mkWorld None None None None [] Running.

(** A runtime for the examples: every file opens, no write fails. *)
Definition quiet : Runtime string :=
  {| fmt_Sprint := fun s => s;
     fmt_Sprintf := fun f args => (f +:+ "|" +:+ String.concat "," args)%string;
     time_Now := fun _ => release_time;
     runtime_Caller := fun _ => mkEntryCaller true "log/logger_test.go" 42;
     zap_Stack := fun _ => "stack"%string;
     open_error := fun _ _ => None;
     write_error := fun _ _ _ => None |}.


(** The state [init] leaves ([Configure(DefaultOptions())]), the logger of
    the package's unit test, and the table after the test has swapped the
    exit function for one that returns. *)
Definition configured : world := fst (Configure quiet DefaultOptions boot).

Definition beep : logger :=
  mkLogger "beep" 0 (Some InfoLevel) (Some NoneLevel) (Some false).

Definition stub_exit (w : world) : world :=
  match funcs w with
  | Some pt =>
      with_funcs w (mkFunctionTable (write pt) (sync pt) (returning_exit 0)
                      (errorSink pt) (close pt))
  | None => panic w
  end.

(** The core and the table that [Configure(DefaultOptions())] installs. *)
Definition default_core : Core :=
  mkCore ConsoleEncoder (Some (OpenedSink "stdout")) (AtomicLevelAt zapcore.DebugLevel).

Definition default_table : functionTable :=
  mkFunctionTable (Some default_core) (Some default_core) os_Exit
    (OpenedSink "stdout") (Some default_core).

(** The test logger with its threshold at [NoneLevel]. *)
Definition silenced : logger := SetOutputLevel beep NoneLevel.

(** A runtime whose sink refuses every write. *)
Definition failing : Runtime string :=
  {| fmt_Sprint := fun s => s;
     fmt_Sprintf := fun f args => (f +:+ "|" +:+ String.concat "," args)%string;
     time_Now := fun _ => release_time;
     runtime_Caller := fun _ => mkEntryCaller true "log/logger_test.go" 42;
     zap_Stack := fun _ => "stack"%string;
     open_error := fun _ _ => None;
     write_error := fun _ _ _ => Some "disk full"%string |}.

(** [Fatal("boom")] on a full disk, with the table [Configure] installs
    and with the exit function swapped for one that returns. *)
Definition fatal_on_full_disk : world :=
  Fatal failing beep "boom"%string (fst (Configure failing DefaultOptions boot)).

Definition fatal_on_full_disk_stubbed : world :=
  Fatal failing beep "boom"%string
    (stub_exit (fst (Configure failing DefaultOptions boot))).

(** A runtime on which no file can be opened; the standard streams are not
    files. *)
Definition closed_fs : Runtime string :=
  {| fmt_Sprint := fun s => s;
     fmt_Sprintf := fun f args => (f +:+ "|" +:+ String.concat "," args)%string;
     time_Now := fun _ => release_time;
     runtime_Caller := fun _ => mkEntryCaller true "log/logger_test.go" 42;
     zap_Stack := fun _ => "stack"%string;
     open_error := fun _ _ => Some "permission denied"%string;
     write_error := fun _ _ _ => None |}.

(** The entry the test logger builds for the message "boom". *)
Definition boom_entry (level : Z) : Entry :=
  mkEntry level release_time "beep" "boom" (mkEntryCaller false "" 0) "".

(** Options that differ from given ones in one field. *)

Definition with_RotateOutputPath (o : Options) (p : string) : Options :=
  mkOptions (OutputPath o) (ErrorOutputPath o) p (RotationMaxSize o)
    (RotationMaxAge o) (RotationMaxBackups o) (JSONEncoding o) (OutputLevel o)
    (StackTraceLevel o) (LogCaller o).
Definition with_ErrorOutputPath (o : Options) (p : string) : Options :=
  mkOptions (OutputPath o) p (RotateOutputPath o) (RotationMaxSize o)
    (RotationMaxAge o) (RotationMaxBackups o) (JSONEncoding o) (OutputLevel o)
    (StackTraceLevel o) (LogCaller o).
Definition with_OutputLevel (o : Options) (s : string) : Options :=
  mkOptions (OutputPath o) (ErrorOutputPath o) (RotateOutputPath o) (RotationMaxSize o)
    (RotationMaxAge o) (RotationMaxBackups o) (JSONEncoding o) s
    (StackTraceLevel o) (LogCaller o).
Definition with_StackTraceLevel (o : Options) (s : string) : Options :=
  mkOptions (OutputPath o) (ErrorOutputPath o) (RotateOutputPath o) (RotationMaxSize o)
    (RotationMaxAge o) (RotationMaxBackups o) (JSONEncoding o) (OutputLevel o)
    s (LogCaller o).

(** Reading a buffer of that layout back, and a time cut to microseconds. *)
Definition field_value (buf : list Z) (from len : nat) : Z :=
  digits_value (take len (drop from buf)).

Definition parse_timestamp (buf : list Z) : Time :=
  mkTime (field_value buf 0 4) (field_value buf 5 2) (field_value buf 8 2)
    (field_value buf 11 2) (field_value buf 14 2) (field_value buf 17 2)
    (1000 * field_value buf 20 6).

Definition to_micros (t : Time) : Time :=
  mkTime (t_year t) (t_month t) (t_day t) (t_hour t) (t_minute t) (t_second t)
    (1000 * (t_nanosecond t / 1000)).

(** ** The package-level functions (logger.go), [init], [Sync] and [Close] (config.go) *)

Section Package.

Context {any : Type} (rt : Runtime any).

(** A package-level function is the method of the same name on
    [defaultLogger]; through a nil [defaultLogger] the method dereferences
    nil. *)
Definition on_defaultLogger (m : logger -> world -> world) (w : world) : world :=
  if is_running w then
    match defaultLogger w with
    | Some l => m l w
    | None => panic w
    end
  else w.

Definition log_Info (field : any) : world -> world :=
  on_defaultLogger (fun l => Info rt l field).
Definition log_Infof (format : string) (fields : list any) : world -> world :=
  on_defaultLogger (fun l => Infof rt l format fields).
Definition log_Debug (field : any) : world -> world :=
  on_defaultLogger (fun l => Debug rt l field).
Definition log_Debugf (format : string) (fields : list any) : world -> world :=
  on_defaultLogger (fun l => Debugf rt l format fields).
Definition log_Warn (field : any) : world -> world :=
  on_defaultLogger (fun l => Warn rt l field).
Definition log_Warnf (format : string) (fields : list any) : world -> world :=
  on_defaultLogger (fun l => Warnf rt l format fields).
Definition log_Error (field : any) : world -> world :=
  on_defaultLogger (fun l => Error rt l field).
Definition log_Errorf (format : string) (fields : list any) : world -> world :=
  on_defaultLogger (fun l => Errorf rt l format fields).
Definition log_Fatal (field : any) : world -> world :=
  on_defaultLogger (fun l => Fatal rt l field).
Definition log_Fatalf (format : string) (fields : list any) : world -> world :=
  on_defaultLogger (fun l => Fatalf rt l format fields).

Definition package_call (c : call) : world -> world :=
  match c with
  | CallDebug field => log_Debug field
  | CallDebugf format fields => log_Debugf format fields
  | CallInfo field => log_Info field
  | CallInfof format fields => log_Infof format fields
  | CallWarn field => log_Warn field
  | CallWarnf format fields => log_Warnf format fields
  | CallError field => log_Error field
  | CallErrorf format fields => log_Errorf format fields
  | CallFatal field => log_Fatal field
  | CallFatalf format fields => log_Fatalf format fields
  end.

(** [func init() { _ = Configure(DefaultOptions()) }] *)
Definition init (w : world) : world := fst (Configure rt DefaultOptions w).

(** [defaultLogger.SetOutputLevel(level)] and its siblings, as the package's
    tests call them: a store through the pointer. *)
Definition set_defaultLogger (f : logger -> logger) (w : world) : world :=
  if is_running w then
    match defaultLogger w with
    | Some l => with_defaultLogger w (f l)
    | None => panic w
    end
  else w.

(** [Configure(opts)] takes a [*Options]: [updateLogger] makes the default
    logger when there is none and then reads [opts.OutputLevel], which
    dereferences a nil [opts]. *)
Definition Configure_ptr (opts : option Options) (w : world) : world * error :=
  match opts with
  | Some o => Configure rt o w
  | None =>
      if is_running w then
        let l :=
          match defaultLogger w with
          | None => mkLogger "" 1 None None None
          | Some l => l
          end in
        (panic (with_defaultLogger w l), None)
      else (w, None)
  end.

(** The replacement of the exit function, as the package's tests do it:
    [pt := funcs.Load().(functionTable); pt.exitProcess = f; funcs.Store(pt)]. *)
Definition set_exitProcess (f : exitFunc) (w : world) : world :=
  if is_running w then
    match funcs w with
    | Some pt =>
        with_funcs w (mkFunctionTable (write pt) (sync pt) f (errorSink pt) (close pt))
    | None => panic w
    end
  else w.

(** What a program does with the package, one step at a time; the options
    of [Configure] come by pointer, [None] being nil. *)
Inductive action :=
| ActConfigure (opts : option Options)
| ActCall (c : @call any)
| ActSetOutputLevel (level : Z)
| ActSetStackTraceLevel (level : Z)
| ActSetLogCallers (b : bool)
| ActSetExit (f : exitFunc).

Definition step (a : action) (w : world) : world :=
  match a with
  | ActConfigure opts => fst (Configure_ptr opts w)
  | ActCall c => package_call c w
  | ActSetOutputLevel level => set_defaultLogger (fun l => SetOutputLevel l level) w
  | ActSetStackTraceLevel level => set_defaultLogger (fun l => SetStackTraceLevel l level) w
  | ActSetLogCallers b => set_defaultLogger (fun l => SetLogCallers l b) w
  | ActSetExit f => set_exitProcess f w
  end.

Definition run (acts : list action) (w : world) : world :=
  fold_left (fun w a => step a w) acts w.

(** The one step that passes a nil pointer. *)
Definition passes_nil (a : action) : Prop := a = ActConfigure None.

End Package.

Section Flush.

(** The outcome of the [n]-th [Sync] of a core's sink. *)
Variable sync_error : nat -> Core -> option string.

(** [core.Sync()] on an [ioCore]: [c.out.Sync()]; the syncs done so far are
    kept beside the world. *)
Definition Core_Sync (c : Core) (w : world) (flushed : list (Core * option string))
  : world * list (Core * option string) * error :=
  match core_out c with
  | None => (panic w, flushed, None)
  | Some _ =>
      let err := sync_error (length flushed) c in
      (w, flushed ++ [(c, err)], err)
  end.

(** [Sync] flushes any buffered log entries:
    [return funcs.Load().(functionTable).sync()]. *)
Definition Sync (w : world) (flushed : list (Core * option string))
  : world * list (Core * option string) * error :=
  if is_running w then
    match funcs w with
    | None => (panic w, flushed, None)
    | Some ft =>
        match sync ft with
        | None => (panic w, flushed, None)
        | Some baseLogger => Core_Sync baseLogger w flushed
        end
    end
  else (w, flushed, None).

(** [Close] implements [io.Closer]; the [close] closure of the table is
    [_ = baseLogger.Sync(); return nil]. *)
Definition Close (w : world) (flushed : list (Core * option string))
  : world * list (Core * option string) * error :=
  if is_running w then
    match funcs w with
    | None => (panic w, flushed, None)
    | Some ft =>
        match close ft with
        | None => (panic w, flushed, None)
        | Some baseLogger =>
            let '(w, flushed, _) := Core_Sync baseLogger w flushed in
            (w, flushed, None)
        end
    end
  else (w, flushed, None).

End Flush.

(** ** Opening a URL (browser.go) *)

Module browser.

(** What [OpenURL] asks of its surroundings: [url.Parse], [runtime.GOOS],
    [exec.LookPath] and [browser.OpenURL] of github.com/pkg/browser, each by
    the error it returns. *)
Record Env := mkEnv {
  url_Parse : string -> option string;
  GOOS : string;
  exec_LookPath : string -> option string;
  pkg_browser_OpenURL : string -> option string
}.

(** The URLs handed to the system's opener, and the error returned. *)
Definition OpenURL (env : Env) (urlstr : string) : list string * option string :=
  match url_Parse env urlstr with
  | Some err => ([], Some err)
  | None =>
      if decide (GOOS env = "linux"%string) then
        match exec_LookPath env "xdg-open" with
        | Some _ => ([], None)
        | None => ([urlstr], pkg_browser_OpenURL env urlstr)
        end
      else ([urlstr], pkg_browser_OpenURL env urlstr)
  end.

End browser.

(** ** The sink of the two cores, by the options *)

(** Both outputs when a primary and a rotating output are configured, the
    one that is configured when only one is, none when neither is; compared
    with what [prepZap] builds in [prepZap_assembles]. *)
Definition composed_sink (opts : Options) : option WriteSyncer :=
  let out := OpenedSink (OutputPath opts) in
  let rot :=
    RotaterSink (mkLumberjack (RotateOutputPath opts) (RotationMaxSize opts)
                   (RotationMaxBackups opts) (RotationMaxAge opts)) in
  match decide (OutputPath opts = ""%string), decide (RotateOutputPath opts = ""%string) with
  | right _, right _ => Some (MultiWriteSyncer out rot)
  | right _, left _ => Some out
  | left _, right _ => Some rot
  | left _, left _ => None
  end.

(** ** A state in which logging works *)

(** The process has not panicked, and while it runs there is a default
    logger with all its settings stored and a registry whose [write], [sync]
    and [close] go to one core over an actual sink. *)
Definition healthy (w : world) : Prop :=
  st w <> Panicked /\
  (is_running w = true ->
   exists (l : logger) (ft : functionTable) (base : Core),
     defaultLogger w = Some l /\ stored l /\ installed w ft base /\
     sync ft = Some base /\ close ft = Some base).

(** The operating system opens no file for the empty path. *)
Definition refuses_empty_path {any : Type} (rt : Runtime any) : Prop :=
  forall n : nat, is_Some (open_error rt n ""%string).

(** ** Order on timestamps *)

(** Byte-wise order on buffers, as Go compares strings. *)
Fixpoint bytes_ltb (a b : list Z) : bool :=
  match a, b with
  | [], [] => false
  | [], _ :: _ => true
  | _ :: _, [] => false
  | x :: a', y :: b' => (x <? y) || ((x =? y) && bytes_ltb a' b')
  end.

(** The order of instants on times in UTC, read to the microsecond. *)
Definition time_fields (t : Time) : list Z :=
  [ t_year t; t_month t; t_day t; t_hour t; t_minute t; t_second t;
    t_nanosecond t / 1000 ].

Definition before_micros (t1 t2 : Time) : bool :=
  bytes_ltb (time_fields t1) (time_fields t2).

(** More examples: a runtime whose second [zap.Open] is refused, options
    that write to a file, and a machine without [xdg-open]. *)
Definition flaky : Runtime string :=
  {| fmt_Sprint := fun s => s;
     fmt_Sprintf := fun f args => (f +:+ "|" +:+ String.concat "," args)%string;
     time_Now := fun _ => release_time;
     runtime_Caller := fun _ => mkEntryCaller true "log/logger_test.go" 42;
     zap_Stack := fun _ => "stack"%string;
     open_error := fun n _ => if (n =? 0)%nat then None else Some "too many open files"%string;
     write_error := fun _ _ _ => None |}.

Definition with_OutputPath (o : Options) (p : string) : Options :=
  mkOptions p (ErrorOutputPath o) (RotateOutputPath o) (RotationMaxSize o)
    (RotationMaxAge o) (RotationMaxBackups o) (JSONEncoding o) (OutputLevel o)
    (StackTraceLevel o) (LogCaller o).

Definition file_options : Options := with_OutputPath DefaultOptions "/var/log/app.log".

Definition rotating_options : Options := with_RotateOutputPath file_options "/var/log/rot.log".

(** A runtime that opens every file but the one with the empty name. *)
Definition strict : Runtime string :=
  {| fmt_Sprint := fun s => s;
     fmt_Sprintf := fun f args => (f +:+ "|" +:+ String.concat "," args)%string;
     time_Now := fun _ => release_time;
     runtime_Caller := fun _ => mkEntryCaller true "log/logger_test.go" 42;
     zap_Stack := fun _ => "stack"%string;
     open_error := fun _ p => if decide (p = ""%string)
                              then Some "no such file or directory"%string else None;
     write_error := fun _ _ _ => None |}.

Definition verbose_options : Options :=
  mkOptions "stdout" "stderr" "" 100 30 1000 true "debug" "error" true.

Definition headless_linux : browser.Env :=
  browser.mkEnv (fun _ => None) "linux"
    (fun _ => Some "executable file not found in $PATH"%string) (fun _ => None).

(** Options for the examples: a valid output level with an unknown
    stack-trace level, an empty stack-trace level, and an error path that
    cannot be opened. *)
Definition half_valid_options : Options :=
  with_StackTraceLevel (with_OutputLevel DefaultOptions "debug") "trace".

Definition no_stack_options : Options := with_StackTraceLevel DefaultOptions "".

Definition bad_output_options : Options := with_OutputLevel DefaultOptions "verbose".

(** The logger [Configure(DefaultOptions())] creates. *)
Definition default_logger : logger :=
  mkLogger "" 1 (Some InfoLevel) (Some NoneLevel) (Some false).

Definition error_file_options : Options :=
  with_ErrorOutputPath DefaultOptions "/var/log/app/errors.log".

(** * Properties *)

(** Membership in a literal list, and its refutation. *)
Ltac in_list :=
  repeat first [ apply list_elem_of_here | apply list_elem_of_further ].
Ltac not_in_list :=
  let H := fresh "H" in
  intros H;
  repeat (apply elem_of_cons in H as [H | H]; [ discriminate H | ]);
  by apply elem_of_nil in H.

(** Equal traces, and equal lists of exits, up to reassociating [++]. *)
Ltac trace_eq := cbn; rewrite <- ?app_assoc; cbn; reflexivity.
Ltac exits_eq :=
  unfold exits; cbn; rewrite ?omap_app; cbn;
  rewrite ?app_nil_r, <- ?app_assoc; cbn; reflexivity.

(** ** Severity names *)

Lemma levelToString_table :
  map (index_string levelToString) validLevels
  = [ "none"; "fatal"; "error"; "warn"; "info"; "debug" ]%string.
Proof. reflexivity. Qed.

Lemma stringToLevel_sound (s : string) (L : Z) :
  stringToLevel !! s = Some L -> L ∈ validLevels /\ levelToString !! L = Some s.
Proof.
  intros H. apply elem_of_list_to_map_2 in H.
  repeat (apply elem_of_cons in H as [H | H];
          [ injection H as -> ->; split; [ unfold validLevels; in_list | reflexivity ] | ]).
  by apply elem_of_nil in H.
Qed.

Lemma stringToLevel_unknown (s : string) :
  s ∉ levelListString -> stringToLevel !! s = None.
Proof. intros H. by apply not_elem_of_list_to_map_1. Qed.

Lemma stringToLevel_known (s : string) :
  s ∈ levelListString -> is_Some (stringToLevel !! s).
Proof.
  intros H. unfold levelListString in H.
  repeat (apply elem_of_cons in H as [-> | H]; [ by eexists | ]).
  by apply elem_of_nil in H.
Qed.

(** C6. The level/name mapping is a bijection on the six levels: each of
    [NoneLevel], ..., [DebugLevel] has its lowercase name in [levelToString],
    [stringToLevel] sends that name back to the level, whatever
    [stringToLevel] accepts is the name of the level it yields, and every
    string other than the six names is rejected. *)
Theorem level_name_bijection :
  map (index_string levelToString) validLevels
    = [ "none"; "fatal"; "error"; "warn"; "info"; "debug" ]%string /\
  (forall L : Z, L ∈ validLevels ->
     exists s : string,
       levelToString !! L = Some s /\ s ∈ levelListString /\
       stringToLevel !! s = Some L) /\
  (forall (s : string) (L : Z),
     stringToLevel !! s = Some L -> L ∈ validLevels /\ levelToString !! L = Some s) /\
  (forall s : string, s ∉ levelListString -> stringToLevel !! s = None).
Proof.
  split; [ exact levelToString_table | ].
  split.
  - intros L H. unfold validLevels in H.
    repeat (apply elem_of_cons in H as [-> | H];
            [ eexists; split; [ reflexivity | split; [ | reflexivity ] ];
              unfold levelListString; in_list | ]).
    by apply elem_of_nil in H.
  - split; [ exact stringToLevel_sound | exact stringToLevel_unknown ].
Qed.

Lemma level_name_bijection_witness :
  (exists s : string,
     levelToString !! WarnLevel = Some s /\ s ∈ levelListString /\
     stringToLevel !! s = Some WarnLevel) /\
  (WarnLevel ∈ validLevels /\ levelToString !! WarnLevel = Some "warn"%string) /\
  stringToLevel !! "trace"%string = None.
Proof.
  destruct level_name_bijection as (_ & Hto & Hfrom & Hrej).
  split; [ apply Hto; unfold validLevels; in_list | ].
  split; [ apply (Hfrom "warn"%string); reflexivity | ].
  apply Hrej. unfold levelListString. not_in_list.
Defined.

(** ** The timestamp encoder *)

Lemma formatDate_buf_length (t : Time) : length (formatDate_buf t) = 27%nat.
Proof. reflexivity. Qed.

Lemma string_of_bytes_length (buf : list Z) :
  String.length (string_of_bytes buf) = length buf.
Proof. induction buf as [| b buf IH]; simpl; [ reflexivity | by rewrite IH ]. Qed.

(** A decimal digit goes through [byte(x) + '0'] unchanged. *)
Lemma digit_byte (x : Z) :
  0 <= x <= 9 -> byte_add (byte_of_int x) (chr "0") = chr "0" + x.
Proof.
  intros H. unfold byte_add, byte_of_int. change (chr "0") with 48.
  rewrite (Z.mod_small x) by lia. rewrite Z.mod_small by lia. lia.
Qed.

Lemma digit_of_rem (x k : Z) :
  0 <= x -> 0 < k ->
  byte_add (byte_of_int (Z.rem (Z.quot x k) 10)) (chr "0") = chr "0" + (x / k) mod 10.
Proof.
  intros Hx Hk. rewrite Z.quot_div_nonneg by lia.
  assert (0 <= x / k) by (apply Z.div_pos; lia).
  rewrite Z.rem_mod_nonneg by lia.
  apply digit_byte. pose proof (Z.mod_pos_bound (x / k) 10). lia.
Qed.

Lemma digit_of_rem_units (x : Z) :
  0 <= x -> byte_add (byte_of_int (Z.rem x 10)) (chr "0") = chr "0" + x mod 10.
Proof.
  intros Hx. rewrite Z.rem_mod_nonneg by lia.
  apply digit_byte. pose proof (Z.mod_pos_bound x 10). lia.
Qed.

Lemma digit_of_quot_tens (x : Z) :
  0 <= x < 100 ->
  byte_add (byte_of_int (Z.quot x 10)) (chr "0") = chr "0" + (x / 10) mod 10.
Proof.
  intros Hx. rewrite Z.quot_div_nonneg by lia.
  assert (0 <= x / 10 < 10) by (split; [ apply Z.div_pos | apply Z.div_lt_upper_bound ]; lia).
  rewrite (Z.mod_small (x / 10)) by lia. apply digit_byte. lia.
Qed.

Lemma formatDate_buf_render (t : Time) :
  wf_time t -> 0 <= t_year t <= 9999 -> formatDate_buf t = render_utc t.
Proof.
  destruct t as [y mo d h mi s ns]. unfold wf_time. simpl. intros Hwf Hy.
  unfold formatDate_buf, render_utc.
  cbn [replicate insert list_insert decimal app
       t_year t_month t_day t_hour t_minute t_second t_nanosecond].
  assert (Hns : 0 <= ns / 1000) by (apply Z.div_pos; lia).
  rewrite (Z.quot_div_nonneg ns 1000) by lia.
  rewrite !digit_of_rem, !digit_of_rem_units, !digit_of_quot_tens by lia.
  rewrite !Z.div_div by lia.
  reflexivity.
Qed.

Lemma is_digit_decimal (x : Z) : is_digit (chr "0" + x mod 10) = true.
Proof.
  unfold is_digit. change (chr "0") with 48. change (chr "9") with 57.
  pose proof (Z.mod_pos_bound x 10). apply andb_true_intro. split; lia.
Qed.

Lemma render_utc_form (t : Time) : is_timestamp_form (render_utc t) = true.
Proof.
  unfold is_timestamp_form, render_utc, layout.
  cbn [decimal app matches_layout]. rewrite !is_digit_decimal.
  rewrite !Z.eqb_refl. reflexivity.
Qed.

Lemma digits_value_snoc (ds : list Z) (d : Z) :
  digits_value (ds ++ [d]) = 10 * digits_value ds + (d - chr "0").
Proof. unfold digits_value. by rewrite fold_left_app. Qed.

Lemma digits_value_decimal (width : nat) (n : Z) :
  digits_value (decimal width n) = n mod 10 ^ Z.of_nat width.
Proof.
  revert n. induction width as [| w IH]; intros n.
  - simpl. by rewrite Z.mod_1_r.
  - cbn [decimal]. rewrite digits_value_snoc, IH.
    rewrite Nat2Z.inj_succ, Z.pow_succ_r by lia.
    rewrite Z.rem_mul_r by lia. lia.
Qed.

Lemma digits_value_decimal_small (width : nat) (n : Z) :
  0 <= n < 10 ^ Z.of_nat width -> digits_value (decimal width n) = n.
Proof. intros H. rewrite digits_value_decimal. by apply Z.mod_small. Qed.

Lemma parse_render (t : Time) :
  wf_time t -> 0 <= t_year t <= 9999 -> parse_timestamp (render_utc t) = to_micros t.
Proof.
  destruct t as [y mo d h mi s ns]. unfold wf_time. simpl. intros Hwf Hy.
  assert (Hus : 0 <= ns / 1000 < 1000000)
    by (split; [ apply Z.div_pos | apply Z.div_lt_upper_bound ]; lia).
  pose proof (digits_value_decimal_small 4 y) as HY.
  pose proof (digits_value_decimal_small 2 mo) as HMO.
  pose proof (digits_value_decimal_small 2 d) as HD.
  pose proof (digits_value_decimal_small 2 h) as HH.
  pose proof (digits_value_decimal_small 2 mi) as HMI.
  pose proof (digits_value_decimal_small 2 s) as HS.
  pose proof (digits_value_decimal_small 6 (ns / 1000)) as HUS.
  change (10 ^ Z.of_nat 4) with 10000 in HY.
  change (10 ^ Z.of_nat 2) with 100 in HMO, HD, HH, HMI, HS.
  change (10 ^ Z.of_nat 6) with 1000000 in HUS.
  cbn [decimal app] in HY, HMO, HD, HH, HMI, HS, HUS.
  unfold parse_timestamp, to_micros, field_value, render_utc.
  cbn [decimal app firstn skipn
       t_year t_month t_day t_hour t_minute t_second t_nanosecond].
  rewrite HY, HMO, HD, HH, HMI, HS, HUS by lia.
  reflexivity.
Qed.

Lemma formatDate_separators (t : Time) (i : nat) (c : Z) :
  layout !! i = Some (Some c) -> formatDate_buf t !! i = Some c.
Proof.
  unfold layout.
  do 27 (destruct i as [| i]; [ cbn; intros H; by simplify_eq | ]).
  cbn. intros H. discriminate H.
Qed.

(** C7. The encoder always hands over 27 bytes with the separators of
    [YYYY-MM-DDTHH:MM:SS.mmmmmmZ] in place; when the year of the time in UTC
    lies in 0..9999 the remaining positions are decimal digits and the text
    is the zero-padded rendering of year, month, day, hour, minute, second
    and microseconds, which reads back to the time cut to microseconds. *)
Theorem formatDate_layout (t : Time) :
  String.length (formatDate t) = 27%nat /\
  (forall (i : nat) (c : Z),
     layout !! i = Some (Some c) -> formatDate_buf t !! i = Some c) /\
  (wf_time t -> 0 <= t_year t <= 9999 ->
     is_timestamp_form (formatDate_buf t) = true /\
     formatDate_buf t = render_utc t /\
     parse_timestamp (formatDate_buf t) = to_micros t).
Proof.
  split.
  { unfold formatDate. by rewrite string_of_bytes_length, formatDate_buf_length. }
  split; [ apply formatDate_separators | ].
  intros Hwf Hy. rewrite (formatDate_buf_render t Hwf Hy).
  split; [ apply render_utc_form | ].
  split; [ reflexivity | by apply parse_render ].
Qed.

Lemma release_time_wf : wf_time release_time.
Proof. unfold wf_time, release_time; simpl; lia. Qed.

Lemma formatDate_layout_witness :
  formatDate release_time = "2024-03-07T09:05:59.123456Z"%string /\
  formatDate_buf release_time !! 10%nat = Some (chr "T") /\
  is_timestamp_form (formatDate_buf release_time) = true /\
  parse_timestamp (formatDate_buf release_time) = to_micros release_time.
Proof.
  destruct (formatDate_layout release_time) as (_ & Hsep & Hdig).
  split; [ reflexivity | ].
  split; [ apply Hsep; reflexivity | ].
  destruct Hdig as (Hform & _ & Hparse);
    [ exact release_time_wf | unfold release_time; simpl; lia | ].
  split; [ exact Hform | exact Hparse ].
Defined.

(** C7, as stated, fails outside the years 0..9999: for the (valid) time
    1 January of year -1 the fourth byte is ['/'], not a digit, and for year
    10000 the text shows the year 0000. *)
Lemma formatDate_year_minus_one :
  wf_time year_minus_one /\
  formatDate year_minus_one = "000/-01-01T00:00:00.000000Z"%string /\
  is_timestamp_form (formatDate_buf year_minus_one) = false /\
  ~ (forall t : Time, wf_time t -> is_timestamp_form (formatDate_buf t) = true) /\
  wf_time year_ten_thousand /\
  formatDate year_ten_thousand = "0000-01-01T00:00:00.000000Z"%string.
Proof.
  assert (Hwf : wf_time year_minus_one)
    by (unfold wf_time, year_minus_one; simpl; lia).
  split; [ exact Hwf | ].
  split; [ reflexivity | ].
  split; [ reflexivity | ].
  split.
  - intros Hall. specialize (Hall year_minus_one Hwf). discriminate Hall.
  - split; [ unfold wf_time, year_ten_thousand; simpl; lia | reflexivity ].
Qed.

(** ** Defaults *)

(** C4. [DefaultOptions()] yields stdout, stderr, "info", "none", no caller,
    30 days and 1000 backups, but [RotationMaxSize] is 104857600, in a field
    counted in megabytes: handed to the rotating writer unchanged, the cap is
    104857600 megabytes, not 100. *)
Theorem DefaultOptions_RotationMaxSize {any : Type} (rt : Runtime any) (w : world) :
  DefaultOptions
    = mkOptions "stdout" "stderr" "" 104857600 30 1000 false "info" "none" false /\
  RotationMaxSize DefaultOptions <> 100 /\
  let r := mkLumberjack "app.log" 104857600 1000 30 in
  snd (prepZap rt (with_RotateOutputPath DefaultOptions "app.log") w)
    = inl (mkCore ConsoleEncoder
             (Some (MultiWriteSyncer (OpenedSink "stdout") (RotaterSink r)))
             (AtomicLevelAt zapcore.DebugLevel),
           mkCore ConsoleEncoder
             (Some (MultiWriteSyncer (OpenedSink "stdout") (RotaterSink r)))
             LoggerEnabler,
           OpenedSink "stdout") /\
  lumberjack_max r = 104857600 * megabyte /\
  lumberjack_max r <> 100 * megabyte.
Proof.
  split; [ reflexivity | ].
  split; [ discriminate | ].
  split; [ reflexivity | ].
  split; [ reflexivity | discriminate ].
Qed.

(** ** The level methods *)

Section LoggingFacts.

Context {any : Type} (rt : Runtime any).

Lemma run_call_log_at (l : logger) (c : @call any) :
  run_call rt l c = log_at rt (call_level c) (call_zap_level c) l (call_message rt c).
Proof. by destruct c. Qed.

Lemma call_enabled_at (l : logger) (c : @call any) :
  call_enabled l c = enabled_at (call_level c) l.
Proof. by destruct c. Qed.

Lemma build_entry_is_Some (l : logger) (level : Z) (msg : string) (w : world) :
  stored l -> is_Some (build_entry rt l level msg w).
Proof.
  intros (_ & [stl Hstl] & [lc Hlc]). unfold build_entry, GetLogCallers, GetStackTraceLevel.
  rewrite Hstl, Hlc. simpl. by eexists.
Qed.

Lemma build_entry_fields (l : logger) (level : Z) (msg : string) (w : world) (e : Entry) :
  build_entry rt l level msg w = Some e -> ent_Level e = level /\ ent_Message e = msg.
Proof.
  unfold build_entry. destruct (GetLogCallers l) as [lc |]; [ | discriminate ].
  destruct (GetStackTraceLevel l) as [stl |]; [ | discriminate ]. simpl.
  intros [= <-]. by repeat case_match.
Qed.

(** What a level method does once the registry is installed. *)
Lemma log_at_installed (required level : Z) (l : logger) (msg : string)
    (w : world) (ft : functionTable) (base : Core) (T : Z) (e : Entry) :
  is_running w = true -> installed w ft base -> outputLevel l = Some T ->
  build_entry rt l level msg w = Some e ->
  log_at rt required level l msg w =
    if T >=? required then
      let err := write_error rt (length (trace w)) base e in
      let w1 := emit (EvCoreWrite base e err) w in
      let w2 := if level =? zapcore.FatalLevel
                then call_exit (exitProcess ft) 1 w1 else w1 in
      if is_running w2 then
        match err with
        | Some m =>
            emit (EvErrorSinkSync (errorSink ft))
              (emit (EvErrorSinkPrint (errorSink ft)
                       (time_Now rt (length (trace w2))) m) w2)
        | None => w2
        end
      else w2
    else w.
Proof.
  intros Hrun (Hft & Hwr & [snk Hout]) HT He.
  destruct (build_entry_fields _ _ _ _ _ He) as [Hlvl _].
  unfold log_at, GetOutputLevel. rewrite Hrun, HT.
  destruct (T >=? required); [ | reflexivity ].
  unfold output. rewrite He, Hft, Hwr.
  unfold table_write, Core_Write. rewrite Hout, Hlvl.
  replace (is_running (emit _ w)) with true by (symmetry; exact Hrun).
  cbn [funcs emit with_trace]. rewrite Hft.
  by destruct (level =? zapcore.FatalLevel).
Qed.

Lemma is_running_emit (ev : event) (w : world) :
  is_running (emit ev w) = is_running w.
Proof. reflexivity. Qed.

Lemma trace_call_exit (f : exitFunc) (code : Z) (w : world) :
  trace (call_exit f code w) = trace w ++ [EvExit f code].
Proof. by destruct f. Qed.

Lemma emitted_emit (ev : event) (w : world) :
  emitted (emit ev w)
  = emitted w ++ match ev with EvCoreWrite _ e _ => [e] | _ => [] end.
Proof. unfold emitted. cbn [emit with_trace trace]. rewrite omap_app. by destruct ev. Qed.

Lemma emitted_call_exit (f : exitFunc) (code : Z) (w : world) :
  emitted (call_exit f code w) = emitted w.
Proof.
  unfold emitted. rewrite trace_call_exit, omap_app. simpl. apply app_nil_r.
Qed.

Lemma exits_emit (ev : event) (w : world) :
  exits (emit ev w)
  = exits w ++ match ev with EvExit f code => [(f, code)] | _ => [] end.
Proof. unfold exits. cbn [emit with_trace trace]. rewrite omap_app. by destruct ev. Qed.

Lemma exits_call_exit (f : exitFunc) (code : Z) (w : world) :
  exits (call_exit f code w) = exits w ++ [(f, code)].
Proof. unfold exits. by rewrite trace_call_exit, omap_app. Qed.

(** Without any assumption on logger or registry, a level method hands at
    most one entry to a core, and that entry carries the method's level and
    message. *)
Lemma log_at_emitted (required level : Z) (l : logger) (msg : string) (w : world) :
  exists es : list Entry,
    emitted (log_at rt required level l msg w) = emitted w ++ es /\
    (length es <= 1)%nat /\
    Forall (fun e => ent_Level e = level /\ ent_Message e = msg) es.
Proof.
  assert (Hnone : exists es : list Entry,
             emitted w = emitted w ++ es /\ (length es <= 1)%nat /\
             Forall (fun e => ent_Level e = level /\ ent_Message e = msg) es).
  { exists []. rewrite app_nil_r. repeat split; [ simpl; lia | constructor ]. }
  unfold log_at. destruct (is_running w); [ | exact Hnone ].
  destruct (GetOutputLevel l) as [cur |]; [ | exact Hnone ].
  destruct (cur >=? required); [ | exact Hnone ].
  unfold output.
  destruct (build_entry rt l level msg w) as [e |] eqn:He; [ | exact Hnone ].
  destruct (funcs w) as [ft |] eqn:Hft; [ | exact Hnone ].
  destruct (write ft) as [base |]; [ | exact Hnone ].
  unfold table_write, Core_Write.
  destruct (core_out base); [ | exact Hnone ].
  exists [e]. split.
  - repeat case_match; simplify_eq;
      rewrite ?emitted_emit, ?emitted_call_exit, ?emitted_emit, ?app_nil_r;
      try reflexivity.
    all: unfold emitted; cbn [panic with_status emit with_trace trace];
      rewrite omap_app; reflexivity.
  - split; [ simpl; lia | ].
    constructor; [ by apply (build_entry_fields l level msg w) | constructor ].
Qed.

(** An enabled call on an installed registry emits the entry it built. *)
Lemma log_at_emits_one (required level : Z) (l : logger) (msg : string)
    (w : world) (ft : functionTable) (base : Core) (T : Z) (e : Entry) :
  is_running w = true -> installed w ft base -> outputLevel l = Some T ->
  build_entry rt l level msg w = Some e -> required <= T ->
  emitted (log_at rt required level l msg w) = emitted w ++ [e].
Proof.
  intros Hrun Hinst HT He Hle.
  rewrite (log_at_installed _ _ l _ w ft base T e Hrun Hinst HT He).
  apply Z.geb_le in Hle. rewrite Hle. cbv zeta.
  repeat case_match;
    rewrite ?emitted_emit, ?emitted_call_exit, ?emitted_emit, ?app_nil_r;
    reflexivity.
Qed.

End LoggingFacts.

Section LevelMethods.

Context {any : Type} (rt : Runtime any).

(** C5. With the order None < Fatal < Error < Warn < Info < Debug of the
    level constants, after [SetOutputLevel(T)] each enablement query answers
    whether [T] is at least its level, and the plain and the formatted method
    of a level hand exactly one entry (of that level, with the call's
    message) to the installed core when that holds and none otherwise. *)
Theorem threshold_enablement (l : logger) (T : Z) (c : @call any) (w : world)
    (ft : functionTable) (base : Core) :
  (NoneLevel < FatalLevel /\ FatalLevel < ErrorLevel /\ ErrorLevel < WarnLevel /\
   WarnLevel < InfoLevel /\ InfoLevel < DebugLevel) /\
  (DebugEnabled (SetOutputLevel l T) = Some (T >=? DebugLevel) /\
   InfoEnabled (SetOutputLevel l T) = Some (T >=? InfoLevel) /\
   WarnEnabled (SetOutputLevel l T) = Some (T >=? WarnLevel) /\
   ErrorEnabled (SetOutputLevel l T) = Some (T >=? ErrorLevel) /\
   FatalEnabled (SetOutputLevel l T) = Some (T >=? FatalLevel)) /\
  call_enabled (SetOutputLevel l T) c = Some (T >=? call_level c) /\
  ((T >=? call_level c) = true <-> call_level c <= T) /\
  (is_running w = true -> stored (SetOutputLevel l T) -> installed w ft base ->
   exists e : Entry,
     ent_Level e = call_zap_level c /\ ent_Message e = call_message rt c /\
     emitted (run_call rt (SetOutputLevel l T) c w)
       = emitted w ++ (if T >=? call_level c then [e] else [])).
Proof.
  split; [ unfold NoneLevel, FatalLevel, ErrorLevel, WarnLevel, InfoLevel, DebugLevel; lia | ].
  split; [ by repeat split | ].
  split; [ by rewrite call_enabled_at | ].
  split; [ rewrite Z.geb_le; reflexivity | ].
  intros Hrun Hst Hinst.
  destruct (build_entry_is_Some rt _ (call_zap_level c) (call_message rt c) w Hst)
    as [e He].
  destruct (build_entry_fields rt _ _ _ _ _ He) as [Hlvl Hmsg].
  exists e. split; [ exact Hlvl | ]. split; [ exact Hmsg | ].
  rewrite run_call_log_at.
  rewrite (log_at_installed rt _ _ (SetOutputLevel l T) _ w ft base T e
             Hrun Hinst (eq_refl (Some T)) He).
  destruct (T >=? call_level c); [ | by rewrite app_nil_r ].
  cbv zeta.
  repeat case_match;
    rewrite ?emitted_emit, ?emitted_call_exit, ?emitted_emit, ?app_nil_r;
    reflexivity.
Qed.

(** C10. A formatted method called without arguments logs the format string
    itself: [maybeSprintf] returns it untouched, hands it to [fmt.Sprintf]
    only when there is at least one argument, and whatever entry the call
    emits carries the format string as its message.  On a running process
    with the logger's settings stored and the registry installed, each of
    [Debugf], [Infof], [Warnf], [Errorf] and [Fatalf] that the output level
    enables does emit exactly one entry, of its level, whose message is the
    format string. *)
Theorem formatted_without_arguments (l : logger) (format : string) (w : world) :
  maybeSprintf rt format [] = format /\
  (forall (a : any) (args : list any),
     maybeSprintf rt format (a :: args) = fmt_Sprintf rt format (a :: args)) /\
  (Debugf rt l format [] w = log_at rt DebugLevel zapcore.DebugLevel l format w /\
   Infof rt l format [] w = log_at rt InfoLevel zapcore.InfoLevel l format w /\
   Warnf rt l format [] w = log_at rt WarnLevel zapcore.WarnLevel l format w /\
   Errorf rt l format [] w = log_at rt ErrorLevel zapcore.ErrorLevel l format w /\
   Fatalf rt l format [] w = log_at rt FatalLevel zapcore.FatalLevel l format w) /\
  Forall
    (fun w' : world =>
       exists es : list Entry,
         emitted w' = emitted w ++ es /\ Forall (fun e => ent_Message e = format) es)
    [ Debugf rt l format [] w; Infof rt l format [] w; Warnf rt l format [] w;
      Errorf rt l format [] w; Fatalf rt l format [] w ] /\
  (forall (ft : functionTable) (base : Core) (T : Z),
     is_running w = true -> stored l -> installed w ft base -> outputLevel l = Some T ->
     (DebugLevel <= T ->
      exists e : Entry,
        ent_Level e = zapcore.DebugLevel /\ ent_Message e = format /\
        emitted (Debugf rt l format [] w) = emitted w ++ [e]) /\
     (InfoLevel <= T ->
      exists e : Entry,
        ent_Level e = zapcore.InfoLevel /\ ent_Message e = format /\
        emitted (Infof rt l format [] w) = emitted w ++ [e]) /\
     (WarnLevel <= T ->
      exists e : Entry,
        ent_Level e = zapcore.WarnLevel /\ ent_Message e = format /\
        emitted (Warnf rt l format [] w) = emitted w ++ [e]) /\
     (ErrorLevel <= T ->
      exists e : Entry,
        ent_Level e = zapcore.ErrorLevel /\ ent_Message e = format /\
        emitted (Errorf rt l format [] w) = emitted w ++ [e]) /\
     (FatalLevel <= T ->
      exists e : Entry,
        ent_Level e = zapcore.FatalLevel /\ ent_Message e = format /\
        emitted (Fatalf rt l format [] w) = emitted w ++ [e])).
Proof.
  split; [ reflexivity | ].
  split; [ reflexivity | ].
  split; [ by repeat split | ].
  split.
  - assert (Hm : forall required level : Z,
               exists es : list Entry,
                 emitted (log_at rt required level l format w) = emitted w ++ es /\
                 Forall (fun e => ent_Message e = format) es).
    { intros required level.
      destruct (log_at_emitted rt required level l format w) as (es & Hes & _ & Hall).
      exists es. split; [ exact Hes | ].
      eapply Forall_impl; [ exact Hall | by intros e [_ Hmsg] ]. }
    repeat (apply Forall_cons_2; [ apply Hm | ]). apply Forall_nil_2.
  - intros ft base T Hrun Hst Hinst HT.
    assert (Hone : forall required level : Z,
               required <= T ->
               exists e : Entry,
                 ent_Level e = level /\ ent_Message e = format /\
                 emitted (log_at rt required level l format w) = emitted w ++ [e]).
    { intros required level Hle.
      destruct (build_entry_is_Some rt l level format w Hst) as [e He].
      destruct (build_entry_fields rt _ _ _ _ _ He) as [Hlvl Hmsg].
      exists e. split; [ exact Hlvl | ]. split; [ exact Hmsg | ].
      by apply (log_at_emits_one rt required level l format w ft base T e). }
    repeat split; intros Hle; by apply Hone.
Qed.

End LevelMethods.

Lemma configured_installed : installed configured default_table default_core.
Proof. repeat split. by eexists. Qed.

Lemma threshold_enablement_witness :
  (exists e : Entry,
     ent_Level e = zapcore.ErrorLevel /\ ent_Message e = "hello"%string /\
     emitted (Error quiet (SetOutputLevel beep WarnLevel) "hello"%string configured)
       = emitted configured ++ [e]) /\
  (exists e : Entry,
     emitted (Infof quiet (SetOutputLevel beep WarnLevel) "hello"%string [] configured)
       = emitted configured ++ []).
Proof.
  split.
  - apply (threshold_enablement quiet beep WarnLevel (CallError "hello"%string)
             configured default_table default_core).
    + reflexivity.
    + repeat split; by eexists.
    + exact configured_installed.
  - destruct (threshold_enablement quiet beep WarnLevel (CallInfof "hello"%string [])
                configured default_table default_core) as (_ & _ & _ & _ & H).
    destruct H as (e & _ & _ & He);
      [ reflexivity | repeat split; by eexists | exact configured_installed | ].
    exists e. exact He.
Defined.

Lemma formatted_without_arguments_witness :
  exists e : Entry,
    ent_Level e = zapcore.InfoLevel /\ ent_Message e = "100% done"%string /\
    emitted (Infof quiet beep "100% done"%string [] configured)
      = emitted configured ++ [e].
Proof.
  destruct (formatted_without_arguments quiet beep "100% done"%string configured)
    as (_ & _ & _ & _ & Hemit).
  destruct (Hemit default_table default_core InfoLevel)
    as (_ & Hinfo & _);
    [ reflexivity | repeat split; by eexists | exact configured_installed
    | reflexivity | ].
  apply Hinfo. unfold InfoLevel. lia.
Defined.

Section FatalCalls.

Context {any : Type} (rt : Runtime any).

(** C1 (amended). A [Fatal] or [Fatalf] call whose logger's output level is
    at least [FatalLevel] writes its entry and then calls the exit function
    of the installed table with status 1, exactly once, whether or not the
    write failed; with the output level below [FatalLevel] (that is,
    [NoneLevel]) the call does nothing at all: no entry and no exit. *)
Theorem Fatal_exits_when_enabled (l : logger) (c : @call any) (w : world)
    (ft : functionTable) (base : Core) (T : Z) :
  call_level c = FatalLevel ->
  is_running w = true -> stored l -> installed w ft base -> outputLevel l = Some T ->
  (T < FatalLevel -> run_call rt l c w = w) /\
  (FatalLevel <= T ->
   exists (e : Entry) (err : option string) (rest : list event),
     trace (run_call rt l c w)
       = trace w ++ [EvCoreWrite base e err; EvExit (exitProcess ft) 1] ++ rest /\
     ent_Level e = zapcore.FatalLevel /\
     ent_Message e = call_message rt c /\
     err = write_error rt (length (trace w)) base e /\
     exits (run_call rt l c w) = exits w ++ [(exitProcess ft, 1)] /\
     (exitProcess ft = os_Exit -> rest = [] /\ st (run_call rt l c w) = Exited 1)).
Proof.
  intros Hc Hrun Hst Hinst HT.
  destruct (build_entry_is_Some rt l (call_zap_level c) (call_message rt c) w Hst)
    as [e He].
  destruct (build_entry_fields rt _ _ _ _ _ He) as [Hlvl Hmsg].
  assert (Hzap : call_zap_level c = zapcore.FatalLevel)
    by (destruct c; try discriminate Hc; reflexivity).
  rewrite run_call_log_at, (log_at_installed rt _ _ l _ w ft base T e Hrun Hinst HT He).
  rewrite Hc, Hzap. cbv zeta. change (zapcore.FatalLevel =? zapcore.FatalLevel) with true.
  cbv iota. split.
  - intros Hlt. destruct (T >=? FatalLevel) eqn:Hge; [ | reflexivity ].
    apply Z.geb_le in Hge. lia.
  - intros Hle. apply Z.geb_le in Hle. rewrite Hle.
    set (err := write_error rt (length (trace w)) base e).
    rewrite Hzap in Hlvl.
    destruct (exitProcess ft) as [| id] eqn:Hexit.
    + exists e, err, [].
      split; [ trace_eq | ]. do 3 (split; [ done | ]).
      split; [ exits_eq | done ].
    + cbn [call_exit]. rewrite !is_running_emit, Hrun.
      destruct err as [m |] eqn:Herr.
      * eexists e, (Some m), [_; _].
        split; [ trace_eq | ]. do 3 (split; [ done | ]).
        split; [ exits_eq | done ].
      * exists e, None, [].
        split; [ trace_eq | ]. do 3 (split; [ done | ]).
        split; [ exits_eq | done ].
Qed.

End FatalCalls.

Lemma beep_stored : stored beep.
Proof. repeat split; by eexists. Qed.

Lemma silenced_stored : stored silenced.
Proof. repeat split; by eexists. Qed.

Lemma Fatal_exits_when_enabled_witness :
  Fatal quiet silenced "boom"%string configured = configured /\
  exists (e : Entry) (err : option string) (rest : list event),
    trace (Fatalf quiet beep "boom"%string [] configured)
      = trace configured ++ [EvCoreWrite default_core e err; EvExit os_Exit 1] ++ rest /\
    ent_Level e = zapcore.FatalLevel /\
    ent_Message e = "boom"%string /\
    err = None /\
    exits (Fatalf quiet beep "boom"%string [] configured)
      = exits configured ++ [(os_Exit, 1)] /\
    (os_Exit = os_Exit ->
     rest = [] /\ st (Fatalf quiet beep "boom"%string [] configured) = Exited 1).
Proof.
  split.
  - apply (Fatal_exits_when_enabled quiet silenced (CallFatal "boom"%string)
             configured default_table default_core NoneLevel);
      [ reflexivity | reflexivity | exact silenced_stored
      | exact configured_installed | reflexivity
      | unfold NoneLevel, FatalLevel; lia ].
  - apply (Fatal_exits_when_enabled quiet beep (CallFatalf "boom"%string [])
             configured default_table default_core InfoLevel);
      [ reflexivity | reflexivity | exact beep_stored
      | exact configured_installed | reflexivity
      | unfold InfoLevel, FatalLevel; lia ].
Defined.

(** C1, as stated, fails: with the output level at [NoneLevel], [Fatal] and
    [Fatalf] leave the world as it was; the exit function is never called. *)
Lemma Fatal_at_NoneLevel_never_exits :
  GetOutputLevel silenced = Some NoneLevel /\
  Fatal quiet silenced "boom"%string configured = configured /\
  Fatalf quiet silenced "boom %s"%string ["now"%string] configured = configured /\
  exits (Fatal quiet silenced "boom"%string configured) = [] /\
  exits (Fatalf quiet silenced "boom %s"%string ["now"%string] configured) = [].
Proof. by repeat split. Qed.

Section WriteErrors.

Context {any : Type} (rt : Runtime any).

Lemma call_zap_level_fatal (c : @call any) :
  (call_zap_level c =? zapcore.FatalLevel) = (call_level c =? FatalLevel).
Proof. by destruct c. Qed.

(** C8 (amended). No level method hands a write error to its caller.  A
    call below [Fatal] always returns, and when its write fails the error
    goes as one line to the error sink of the installed table, followed by
    a sync of that sink.  The same holds for [Fatal] and [Fatalf] when the
    installed exit function returns; with [os.Exit] installed the process
    ends inside the write function, before any diagnostic line. *)
Theorem write_error_reported (l : logger) (c : @call any) (w : world)
    (ft : functionTable) (base : Core) (T : Z) :
  is_running w = true -> stored l -> installed w ft base -> outputLevel l = Some T ->
  (call_level c <> FatalLevel -> is_running (run_call rt l c w) = true) /\
  (forall (e : Entry) (m : string),
     call_level c <= T ->
     build_entry rt l (call_zap_level c) (call_message rt c) w = Some e ->
     write_error rt (length (trace w)) base e = Some m ->
     (call_level c <> FatalLevel ->
      exists now : Time,
        trace (run_call rt l c w)
          = trace w ++ [ EvCoreWrite base e (Some m);
                         EvErrorSinkPrint (errorSink ft) now m;
                         EvErrorSinkSync (errorSink ft) ]) /\
     (forall id : nat,
        call_level c = FatalLevel -> exitProcess ft = returning_exit id ->
        is_running (run_call rt l c w) = true /\
        exists now : Time,
          trace (run_call rt l c w)
            = trace w ++ [ EvCoreWrite base e (Some m);
                           EvExit (returning_exit id) 1;
                           EvErrorSinkPrint (errorSink ft) now m;
                           EvErrorSinkSync (errorSink ft) ]) /\
     (call_level c = FatalLevel -> exitProcess ft = os_Exit ->
      st (run_call rt l c w) = Exited 1 /\
      trace (run_call rt l c w)
        = trace w ++ [ EvCoreWrite base e (Some m); EvExit os_Exit 1 ])).
Proof.
  intros Hrun Hst Hinst HT.
  destruct (build_entry_is_Some rt l (call_zap_level c) (call_message rt c) w Hst)
    as [e0 He0].
  rewrite run_call_log_at.
  rewrite (log_at_installed rt _ _ l _ w ft base T e0 Hrun Hinst HT He0).
  rewrite call_zap_level_fatal. cbv zeta. split.
  - intros Hnf. apply Z.eqb_neq in Hnf. rewrite Hnf.
    destruct (T >=? call_level c); [ | exact Hrun ].
    rewrite is_running_emit, Hrun.
    by destruct (write_error rt (length (trace w)) base e0).
  - intros e m Hle He Hm. rewrite He0 in He. injection He as ->.
    apply Z.geb_le in Hle. rewrite Hle, Hm.
    split; [ | split ].
    + intros Hnf. apply Z.eqb_neq in Hnf. rewrite Hnf.
      rewrite is_running_emit, Hrun. eexists. trace_eq.
    + intros id Hf Hexit. apply Z.eqb_eq in Hf. rewrite Hf, Hexit.
      cbn [call_exit]. rewrite !is_running_emit, Hrun.
      split; [ by rewrite !is_running_emit | eexists; trace_eq ].
    + intros Hf Hexit. apply Z.eqb_eq in Hf. rewrite Hf, Hexit.
      split; [ reflexivity | trace_eq ].
Qed.

End WriteErrors.

Lemma write_error_reported_witness :
  is_running (Error failing beep "boom"%string configured) = true /\
  (exists now : Time,
     trace (Error failing beep "boom"%string configured)
       = trace configured ++ [ EvCoreWrite default_core (boom_entry zapcore.ErrorLevel)
                                 (Some "disk full"%string);
                               EvErrorSinkPrint (OpenedSink "stdout") now "disk full";
                               EvErrorSinkSync (OpenedSink "stdout") ]) /\
  (is_running (Fatal failing beep "boom"%string (stub_exit configured)) = true /\
   exists now : Time,
     trace (Fatal failing beep "boom"%string (stub_exit configured))
       = trace (stub_exit configured)
           ++ [ EvCoreWrite default_core (boom_entry zapcore.FatalLevel)
                  (Some "disk full"%string);
                EvExit (returning_exit 0) 1;
                EvErrorSinkPrint (OpenedSink "stdout") now "disk full";
                EvErrorSinkSync (OpenedSink "stdout") ]) /\
  (st (Fatal failing beep "boom"%string configured) = Exited 1 /\
   trace (Fatal failing beep "boom"%string configured)
     = trace configured ++ [ EvCoreWrite default_core (boom_entry zapcore.FatalLevel)
                               (Some "disk full"%string);
                             EvExit os_Exit 1 ]).
Proof.
  pose proof (write_error_reported failing beep (CallError "boom"%string) configured
                default_table default_core InfoLevel
                eq_refl beep_stored configured_installed eq_refl) as [Hret Herr].
  destruct (Herr (boom_entry zapcore.ErrorLevel) "disk full"%string)
    as (Hdiag & _ & _);
    [ unfold call_level, ErrorLevel, FatalLevel, InfoLevel; lia
    | reflexivity | reflexivity | ].
  split; [ apply Hret; discriminate | ].
  split; [ apply Hdiag; discriminate | ].
  assert (Hstub : installed (stub_exit configured)
                    (mkFunctionTable (Some default_core) (Some default_core)
                       (returning_exit 0) (OpenedSink "stdout") (Some default_core))
                    default_core)
    by (repeat split; by eexists).
  pose proof (write_error_reported failing beep (CallFatal "boom"%string)
                (stub_exit configured) _ default_core InfoLevel
                eq_refl beep_stored Hstub eq_refl) as [_ Hstubbed].
  destruct (Hstubbed (boom_entry zapcore.FatalLevel) "disk full"%string)
    as (_ & Hreturns & _);
    [ unfold call_level, ErrorLevel, FatalLevel, InfoLevel; lia
    | reflexivity | reflexivity | ].
  split; [ exact (Hreturns 0%nat eq_refl eq_refl) | ].
  pose proof (write_error_reported failing beep (CallFatal "boom"%string) configured
                default_table default_core InfoLevel
                eq_refl beep_stored configured_installed eq_refl) as [_ Hfatal].
  destruct (Hfatal (boom_entry zapcore.FatalLevel) "disk full"%string)
    as (_ & _ & Hexit);
    [ unfold call_level, ErrorLevel, FatalLevel, InfoLevel; lia
    | reflexivity | reflexivity | ].
  exact (Hexit eq_refl eq_refl).
Defined.

(** C8, as stated, fails for [Fatal] under the table [Configure] installs:
    on a failing sink the process ends with status 1 right after the write,
    the error reaches no error sink, and the call does not return. *)
Lemma Fatal_write_error_unreported :
  st fatal_on_full_disk = Exited 1 /\
  trace fatal_on_full_disk
    = [ EvOpen "stdout" None; EvOpen "stdout" None;
        EvCoreWrite default_core (boom_entry zapcore.FatalLevel) (Some "disk full"%string);
        EvExit os_Exit 1 ] /\
  Forall (fun ev => match ev with
                    | EvErrorSinkPrint _ _ _ | EvErrorSinkSync _ => False
                    | _ => True
                    end) (trace fatal_on_full_disk).
Proof.
  split; [ reflexivity | ]. split; [ reflexivity | ].
  repeat constructor.
Qed.

(** ** Configuration *)

Section Configuration.

Context {any : Type} (rt : Runtime any).

Lemma with_defaultLogger_same (w : world) (l : logger) :
  defaultLogger w = Some l -> with_defaultLogger w l = w.
Proof. destruct w; simpl; intros ->; reflexivity. Qed.

Lemma nonempty_length (s : string) :
  s <> ""%string -> (String.length s =? 0)%nat = false.
Proof. by destruct s. Qed.

Lemma updateLogger_bad_output_level (opts : Options) (w : world) (l : logger) :
  defaultLogger w = Some l -> stringToLevel !! OutputLevel opts = None ->
  updateLogger opts w
  = (w, Some ("invalid output level '" +:+ OutputLevel opts +:+ "'")).
Proof.
  intros Hl Hout. unfold updateLogger. rewrite Hl, Hout.
  by rewrite with_defaultLogger_same.
Qed.

Lemma updateLogger_bad_stack_level (opts : Options) (w : world) (level : Z) :
  stringToLevel !! OutputLevel opts = Some level ->
  StackTraceLevel opts <> ""%string ->
  stringToLevel !! StackTraceLevel opts = None ->
  updateLogger opts w
  = (with_defaultLogger w
       (SetOutputLevel
          (match defaultLogger w with
           | Some l => l
           | None => mkLogger "" 1 None None None
           end) level),
     Some ("invalid stack trace level '" +:+ OutputLevel opts +:+ "'")).
Proof.
  intros Hout Hne Hstack. unfold updateLogger.
  by rewrite Hout, (nonempty_length _ Hne), Hstack.
Qed.

(** C3 (amended). With a logger in place, an unrecognized [OutputLevel]
    makes [Configure] return the invalid-level error and leaves the whole
    state, the three settings included, as it was.  A recognized
    [OutputLevel] with a non-empty unrecognized [StackTraceLevel] also makes
    it return an error and leaves stack-trace level, caller flag, registry
    and sinks untouched, but by then the output level is the parsed one. *)
Theorem Configure_invalid_level (opts : Options) (w : world) (l : logger) :
  is_running w = true -> defaultLogger w = Some l ->
  (stringToLevel !! OutputLevel opts = None ->
   Configure rt opts w
   = (w, Some ("invalid output level '" +:+ OutputLevel opts +:+ "'"))) /\
  (forall level : Z,
     stringToLevel !! OutputLevel opts = Some level ->
     StackTraceLevel opts <> ""%string ->
     stringToLevel !! StackTraceLevel opts = None ->
     is_Some (snd (Configure rt opts w)) /\
     fst (Configure rt opts w) = with_defaultLogger w (SetOutputLevel l level) /\
     GetOutputLevel (SetOutputLevel l level) = Some level /\
     GetStackTraceLevel (SetOutputLevel l level) = GetStackTraceLevel l /\
     GetLogCallers (SetOutputLevel l level) = GetLogCallers l).
Proof.
  intros Hrun Hl. split.
  - intros Hout. unfold Configure.
    by rewrite Hrun, (updateLogger_bad_output_level opts w l Hl Hout).
  - intros level Hout Hne Hstack. unfold Configure.
    rewrite Hrun, (updateLogger_bad_stack_level opts w level Hout Hne Hstack), Hl.
    by repeat split.
Qed.

(** C9 (amended). [Configure] returns an error for every [OutputLevel]
    outside the six names (the empty string included) and for every
    non-empty [StackTraceLevel] outside them; an empty [StackTraceLevel]
    passes validation and leaves the stored stack-trace level alone. *)
Theorem Configure_rejects_unknown_levels (opts : Options) (w : world) :
  is_running w = true ->
  (OutputLevel opts ∉ levelListString -> is_Some (snd (Configure rt opts w))) /\
  (StackTraceLevel opts ∉ levelListString -> StackTraceLevel opts <> ""%string ->
   is_Some (snd (Configure rt opts w))) /\
  (StackTraceLevel opts = ""%string -> OutputLevel opts ∈ levelListString ->
   snd (updateLogger opts w) = None /\
   (defaultLogger (fst (updateLogger opts w)) ≫= GetStackTraceLevel)
   = (defaultLogger w ≫= GetStackTraceLevel)).
Proof.
  intros Hrun.
  assert (Hbad : stringToLevel !! OutputLevel opts = None ->
                 is_Some (snd (Configure rt opts w))).
  { intros Hout. unfold Configure, updateLogger. rewrite Hrun, Hout. by eexists. }
  split; [ intros Hout; by apply Hbad, stringToLevel_unknown | ].
  split.
  - intros Hstack Hne. apply stringToLevel_unknown in Hstack.
    destruct (stringToLevel !! OutputLevel opts) as [level |] eqn:Hout;
      [ | by apply Hbad ].
    unfold Configure.
    rewrite Hrun, (updateLogger_bad_stack_level opts w level Hout Hne Hstack).
    by eexists.
  - intros Hempty Hout. apply stringToLevel_known in Hout as [level Hout].
    unfold updateLogger. rewrite Hout, Hempty. cbn.
    split; [ reflexivity | by destruct (defaultLogger w) ].
Qed.

(** [prepZap] never reads [ErrorOutputPath]. *)
Lemma prepZap_ignores_ErrorOutputPath (opts : Options) (p : string) (w : world) :
  prepZap rt (with_ErrorOutputPath opts p) w = prepZap rt opts w.
Proof. reflexivity. Qed.

(** The two ways [prepZap] fails: the first [zap.Open] (whose result becomes
    the error sink) is refused and nothing was opened before it, or the
    second one is refused and the sink from the first is closed again. *)
Lemma zap_Open_refused (path : string) (w : world) (err : string) :
  path <> "stdout"%string -> path <> "stderr"%string ->
  open_error rt (length (trace w)) path = Some err ->
  zap_Open rt path w = (emit (EvOpen path (Some err)) w, inr err).
Proof.
  intros Hout Herr Hopen. unfold zap_Open.
  destruct (decide (path = "stdout"%string \/ path = "stderr"%string)) as [[? | ?] | _];
    [ done | done | ].
  by rewrite Hopen.
Qed.

Lemma zap_Open_granted (path : string) (w : world) :
  open_error rt (length (trace w)) path = None ->
  zap_Open rt path w = (emit (EvOpen path None) w, inl (OpenedSink path)).
Proof.
  intros Hopen. unfold zap_Open.
  destruct (decide (path = "stdout"%string \/ path = "stderr"%string));
    [ reflexivity | by rewrite Hopen ].
Qed.

Lemma prepZap_first_open_refused (opts : Options) (w : world) (err : string) :
  OutputPath opts <> "stdout"%string -> OutputPath opts <> "stderr"%string ->
  open_error rt (length (trace w)) (OutputPath opts) = Some err ->
  prepZap rt opts w = (emit (EvOpen (OutputPath opts) (Some err)) w, inr err).
Proof.
  intros Hout Herr Hopen. unfold prepZap.
  by rewrite (zap_Open_refused _ w err Hout Herr Hopen).
Qed.

Lemma prepZap_second_open_refused (opts : Options) (w : world) (err : string) :
  OutputPath opts <> ""%string ->
  OutputPath opts <> "stdout"%string -> OutputPath opts <> "stderr"%string ->
  open_error rt (length (trace w)) (OutputPath opts) = None ->
  open_error rt (S (length (trace w))) (OutputPath opts) = Some err ->
  snd (prepZap rt opts w) = inr err /\
  trace (fst (prepZap rt opts w))
    = trace w ++ [ EvOpen (OutputPath opts) None;
                   EvOpen (OutputPath opts) (Some err);
                   EvCloseSink (OpenedSink (OutputPath opts)) ].
Proof.
  intros Hne Hout Herr Hfirst Hsecond. unfold prepZap.
  rewrite (zap_Open_granted _ w Hfirst).
  assert (Hlen : (0 <? String.length (OutputPath opts))%nat = true)
    by (by destruct (OutputPath opts)).
  rewrite Hlen.
  rewrite (zap_Open_refused _ (emit (EvOpen (OutputPath opts) None) w) err Hout Herr).
  - split; [ reflexivity | trace_eq ].
  - cbn [emit with_trace trace]. rewrite length_app. cbn.
    by replace (length (trace w) + 1)%nat with (S (length (trace w))) by lia.
Qed.

Lemma updateLogger_stores (opts : Options) (w w' : world) :
  updateLogger opts w = (w', None) ->
  exists l : logger,
    defaultLogger w' = Some l /\ is_Some (outputLevel l) /\ is_Some (logCallers l).
Proof.
  unfold updateLogger.
  destruct (stringToLevel !! OutputLevel opts) as [level |]; [ | discriminate ].
  destruct (String.length (StackTraceLevel opts) =? 0)%nat.
  - intros [= <-]. eexists. split; [ reflexivity | split; by eexists ].
  - destruct (stringToLevel !! StackTraceLevel opts); [ | discriminate ].
    intros [= <-]. eexists. split; [ reflexivity | split; by eexists ].
Qed.

Lemma zap_Open_defaultLogger (path : string) (w : world) :
  defaultLogger (fst (zap_Open rt path w)) = defaultLogger w.
Proof. unfold zap_Open. by repeat case_match. Qed.

Lemma prepZap_defaultLogger (opts : Options) (w : world) :
  defaultLogger (fst (prepZap rt opts w)) = defaultLogger w.
Proof.
  unfold prepZap.
  destruct (zap_Open rt (OutputPath opts) w) as [w1 [errSink | err]] eqn:H1;
    pose proof (zap_Open_defaultLogger (OutputPath opts) w) as Hd1;
    rewrite H1 in Hd1; [ | exact Hd1 ].
  destruct (0 <? String.length (OutputPath opts))%nat; [ | exact Hd1 ].
  destruct (zap_Open rt (OutputPath opts) w1) as [w2 [s | err]] eqn:H2;
    pose proof (zap_Open_defaultLogger (OutputPath opts) w1) as Hd2;
    rewrite H2 in Hd2; cbn in *; congruence.
Qed.

(** What a successful [Configure] leaves behind: a table whose [write] goes
    to the core it built and whose exit function is [os.Exit], and a default
    logger with all three settings stored. *)
Lemma Configure_installs (opts : Options) (w w' : world) :
  is_running w = true ->
  Configure rt opts w = (w', None) -> is_running w' = true ->
  exists (ft : functionTable) (base : Core) (l : logger),
    funcs w' = Some ft /\ write ft = Some base /\ exitProcess ft = os_Exit /\
    defaultLogger w' = Some l /\ stored l.
Proof.
  intros Hrun Hcfg Hrun'. unfold Configure in Hcfg. rewrite Hrun in Hcfg.
  destruct (updateLogger opts w) as [w1 [err |]] eqn:Hupd; [ discriminate | ].
  destruct (updateLogger_stores opts w w1 Hupd) as (l & Hl & Hout & Hcallers).
  pose proof (prepZap_defaultLogger opts w1) as Hkeep.
  destruct (prepZap rt opts w1) as [w2 [[[base builder] errSink] | err]] eqn:Hprep;
    [ | discriminate ].
  cbn [fst] in Hkeep. cbn [defaultLogger with_funcs] in Hcfg.
  rewrite Hkeep, Hl in Hcfg.
  destruct (GetLogCallers l) as [lc |] eqn:Hlc;
    [ | injection Hcfg as <-; discriminate ].
  destruct (GetStackTraceLevel l) as [stl |] eqn:Hstl;
    [ | injection Hcfg as <-; discriminate ].
  injection Hcfg as <-.
  eexists _, base, l. cbn. rewrite Hkeep.
  repeat split; done.
Qed.

End Configuration.

Lemma Configure_invalid_level_witness :
  Configure quiet bad_output_options configured
    = (configured, Some "invalid output level 'verbose'"%string) /\
  is_Some (snd (Configure quiet half_valid_options configured)) /\
  fst (Configure quiet half_valid_options configured)
    = with_defaultLogger configured (SetOutputLevel default_logger DebugLevel) /\
  GetOutputLevel (SetOutputLevel default_logger DebugLevel) = Some DebugLevel /\
  GetStackTraceLevel (SetOutputLevel default_logger DebugLevel)
    = GetStackTraceLevel default_logger /\
  GetLogCallers (SetOutputLevel default_logger DebugLevel)
    = GetLogCallers default_logger.
Proof.
  split.
  - apply (Configure_invalid_level quiet bad_output_options configured default_logger);
      reflexivity.
  - destruct (Configure_invalid_level quiet half_valid_options configured
                default_logger eq_refl eq_refl) as [_ Hstack].
    apply (Hstack DebugLevel); [ reflexivity | discriminate | reflexivity ].
Defined.

(** C3, as stated, fails: a call that is refused for its stack-trace level
    has already replaced the output level ("info" before, "debug" after). *)
Lemma Configure_refused_yet_output_level_changed :
  stringToLevel !! StackTraceLevel half_valid_options = None /\
  snd (Configure quiet half_valid_options configured)
    = Some "invalid stack trace level 'debug'"%string /\
  (defaultLogger configured ≫= GetOutputLevel) = Some InfoLevel /\
  (defaultLogger (fst (Configure quiet half_valid_options configured)) ≫= GetOutputLevel)
    = Some DebugLevel.
Proof. by repeat split. Qed.

Lemma Configure_rejects_unknown_levels_witness :
  is_Some (snd (Configure quiet bad_output_options configured)) /\
  is_Some (snd (Configure quiet half_valid_options configured)) /\
  snd (updateLogger no_stack_options configured) = None /\
  (defaultLogger (fst (updateLogger no_stack_options configured)) ≫= GetStackTraceLevel)
    = (defaultLogger configured ≫= GetStackTraceLevel).
Proof.
  destruct (Configure_rejects_unknown_levels quiet bad_output_options configured eq_refl)
    as (Houtput & _ & _).
  destruct (Configure_rejects_unknown_levels quiet half_valid_options configured eq_refl)
    as (_ & Hstack & _).
  destruct (Configure_rejects_unknown_levels quiet no_stack_options configured eq_refl)
    as (_ & _ & Hempty).
  split; [ apply Houtput; unfold levelListString; not_in_list | ].
  split; [ apply Hstack; [ unfold levelListString; not_in_list | discriminate ] | ].
  apply Hempty; [ reflexivity | unfold levelListString; in_list ].
Defined.

(** C9, as stated, fails at the empty string: it is none of the six names,
    yet [Configure] accepts it as [StackTraceLevel]. *)
Lemma Configure_accepts_empty_StackTraceLevel :
  StackTraceLevel no_stack_options = ""%string /\
  (""%string ∉ levelListString) /\
  stringToLevel !! ""%string = None /\
  snd (Configure quiet no_stack_options configured) = None /\
  is_running (fst (Configure quiet no_stack_options configured)) = true.
Proof.
  split; [ reflexivity | ].
  split; [ unfold levelListString; not_in_list | by repeat split ].
Qed.

(** C2. The error sink does not come from [ErrorOutputPath]: [prepZap]
    gives the same result whatever that field holds.  With no file that can
    be opened and an [ErrorOutputPath] naming a file, [Configure] still
    succeeds, opens "stdout" twice and nothing else, and installs the
    standard output as error sink; with the defaults the error sink is the
    standard output as well, not the standard error. *)
Theorem prepZap_error_sink_from_OutputPath :
  (forall (any : Type) (rt : Runtime any) (opts : Options) (p : string) (w : world),
     prepZap rt (with_ErrorOutputPath opts p) w = prepZap rt opts w) /\
  ErrorOutputPath error_file_options = "/var/log/app/errors.log"%string /\
  open_error closed_fs 0 "/var/log/app/errors.log" = Some "permission denied"%string /\
  snd (Configure closed_fs error_file_options boot) = None /\
  (errorSink <$> funcs (fst (Configure closed_fs error_file_options boot)))
    = Some (OpenedSink "stdout") /\
  trace (fst (Configure closed_fs error_file_options boot))
    = [ EvOpen "stdout" None; EvOpen "stdout" None ] /\
  ErrorOutputPath DefaultOptions = "stderr"%string /\
  (errorSink <$> funcs (fst (Configure quiet DefaultOptions boot)))
    = Some (OpenedSink "stdout").
Proof.
  split; [ intros; apply prepZap_ignores_ErrorOutputPath | by repeat split ].
Qed.

(** * Further properties *)

(** ** The two severity scales *)

(** [levelToZap] and [toLevel] are inverse to each other on the five levels
    that log, [NoneLevel] has no zap severity, and the two scales run in
    opposite directions. *)
Theorem zap_scale_reversed :
  (forall L z : Z, levelToZap !! L = Some z <-> toLevel !! z = Some L) /\
  (forall L : Z,
     is_Some (levelToZap !! L) <->
     L ∈ [FatalLevel; ErrorLevel; WarnLevel; InfoLevel; DebugLevel]) /\
  levelToZap !! NoneLevel = None /\
  (forall L1 L2 z1 z2 : Z,
     levelToZap !! L1 = Some z1 -> levelToZap !! L2 = Some z2 ->
     (L1 <= L2 <-> z2 <= z1)).
Proof.
  assert (Hzap : forall L z : Z, levelToZap !! L = Some z ->
            (L, z) ∈ [ (DebugLevel, zapcore.DebugLevel); (InfoLevel, zapcore.InfoLevel);
                       (WarnLevel, zapcore.WarnLevel); (ErrorLevel, zapcore.ErrorLevel);
                       (FatalLevel, zapcore.FatalLevel) ])
    by (intros L z H; by apply elem_of_list_to_map_2 in H).
  assert (Hto : forall z L : Z, toLevel !! z = Some L ->
            (z, L) ∈ [ (zapcore.FatalLevel, FatalLevel); (zapcore.ErrorLevel, ErrorLevel);
                       (zapcore.WarnLevel, WarnLevel); (zapcore.InfoLevel, InfoLevel);
                       (zapcore.DebugLevel, DebugLevel) ])
    by (intros z L H; by apply elem_of_list_to_map_2 in H).
  split; [ | split; [ | split ] ].
  - intros L z. split; intros H.
    + apply Hzap in H.
      repeat (apply elem_of_cons in H as [H | H]; [ by injection H as -> -> | ]).
      by apply elem_of_nil in H.
    + apply Hto in H.
      repeat (apply elem_of_cons in H as [H | H]; [ by injection H as -> -> | ]).
      by apply elem_of_nil in H.
  - intros L. split.
    + intros [z H]. apply Hzap in H.
      repeat (apply elem_of_cons in H as [H | H]; [ injection H as -> ->; in_list | ]).
      by apply elem_of_nil in H.
    + intros H.
      repeat (apply elem_of_cons in H as [-> | H]; [ by eexists | ]).
      by apply elem_of_nil in H.
  - reflexivity.
  - intros L1 L2 z1 z2 H1 H2. apply Hzap in H1. apply Hzap in H2.
    repeat (apply elem_of_cons in H1 as [H1 | H1];
            [ injection H1 as -> -> | ]); [ .. | by apply elem_of_nil in H1 ];
    (repeat (apply elem_of_cons in H2 as [H2 | H2];
             [ injection H2 as -> ->; by vm_compute | ]);
     by apply elem_of_nil in H2).
Qed.

Lemma zap_scale_reversed_witness :
  toLevel !! zapcore.WarnLevel = Some WarnLevel /\
  WarnLevel ∈ [FatalLevel; ErrorLevel; WarnLevel; InfoLevel; DebugLevel] /\
  (FatalLevel <= DebugLevel <-> zapcore.DebugLevel <= zapcore.FatalLevel).
Proof.
  destruct zap_scale_reversed as (Hinv & Hdom & _ & Hrev).
  split; [ by apply Hinv | ].
  split; [ apply Hdom; by eexists | ].
  by apply (Hrev FatalLevel DebugLevel).
Defined.

(** ** More on the level methods *)

Section LevelMethodsMore.

Context {any : Type} (rt : Runtime any).

Lemma toLevel_call_level (c : @call any) :
  index_level toLevel (call_zap_level c) = call_level c.
Proof. by destruct c. Qed.

Lemma call_zap_level_not_fatal (c : @call any) :
  call_level c <> FatalLevel -> (call_zap_level c =? zapcore.FatalLevel) = false.
Proof. destruct c; intros H; try reflexivity; by destruct H. Qed.

(** A level method touches nothing but the trace and the status. *)
Lemma log_at_frame (required level : Z) (l : logger) (msg : string) (w : world) :
  let w' := log_at rt required level l msg w in
  (exists evs : list event, trace w' = trace w ++ evs) /\
  funcs w' = funcs w /\ defaultLogger w' = defaultLogger w /\
  zap_globals w' = zap_globals w /\ std_log w' = std_log w.
Proof.
  unfold log_at, output, table_write, Core_Write, call_exit.
  repeat case_match; simplify_eq; cbn;
    (split; [ | by repeat split ]);
    first [ by exists []; rewrite app_nil_r
          | rewrite <- ?app_assoc; by eexists ].
Qed.

(** No level method changes the configuration: the registry, the default
    logger and zap's globals are what they were, and the trace is only
    extended. *)
Theorem level_methods_keep_configuration (l : logger) (c : @call any) (w : world) :
  (exists evs : list event, trace (run_call rt l c w) = trace w ++ evs) /\
  funcs (run_call rt l c w) = funcs w /\
  defaultLogger (run_call rt l c w) = defaultLogger w /\
  zap_globals (run_call rt l c w) = zap_globals w /\
  std_log (run_call rt l c w) = std_log w.
Proof. rewrite run_call_log_at. apply log_at_frame. Qed.

(** Only [Fatal] and [Fatalf] reach the exit function: any other level
    method, on any logger and in any state, asks for no exit and does not
    end the process. *)
Theorem only_fatal_calls_exit (l : logger) (c : @call any) (w : world) :
  call_level c <> FatalLevel ->
  exits (run_call rt l c w) = exits w /\
  (is_running w = true -> forall code : Z, st (run_call rt l c w) <> Exited code).
Proof.
  intros Hnf. apply call_zap_level_not_fatal in Hnf.
  rewrite run_call_log_at. unfold log_at.
  destruct (is_running w) eqn:Hrun; [ | split; [ reflexivity | discriminate ] ].
  assert (Hst : forall code : Z, st w <> Exited code)
    by (intros code Hex; unfold is_running in Hrun; by rewrite Hex in Hrun).
  destruct (GetOutputLevel l) as [cur |]; [ | by split ].
  destruct (cur >=? call_level c); [ | by split ].
  unfold output.
  destruct (build_entry rt l (call_zap_level c) (call_message rt c) w) as [e |] eqn:He;
    [ | by split ].
  destruct (build_entry_fields rt _ _ _ _ _ He) as [Hlvl _].
  destruct (funcs w) as [ft |]; [ | by split ].
  destruct (write ft) as [base |]; [ | by split ].
  unfold table_write, Core_Write. rewrite Hlvl, Hnf.
  destruct (core_out base); [ | by split ].
  rewrite is_running_emit, Hrun. cbn [fst snd]. rewrite is_running_emit, Hrun.
  destruct (write_error rt (length (trace w)) base e); split;
    try exits_eq; intros _ code; apply Hst.
Qed.

(** What the entry of an enabled call holds: the level and message of the
    call and the time of the call; the logger's name unless that is
    "default"; the caller, [callerSkip + 3] frames up, only when caller
    logging is on; a stack trace exactly when the stack-trace level is at
    least the level of the call. *)
Theorem emitted_entry_contents (l : logger) (c : @call any) (w : world)
    (ft : functionTable) (base : Core) (T S : Z) (lc : bool) :
  is_running w = true -> installed w ft base ->
  outputLevel l = Some T -> stackTraceLevel l = Some S -> logCallers l = Some lc ->
  call_level c <= T ->
  exists e : Entry,
    emitted (run_call rt l c w) = emitted w ++ [e] /\
    ent_Level e = call_zap_level c /\
    ent_Message e = call_message rt c /\
    ent_Time e = time_Now rt (length (trace w)) /\
    ent_LoggerName e = (if decide (name l = "default"%string) then ""%string else name l) /\
    ent_Caller e = (if lc then runtime_Caller rt (callerSkip l + 3)
                    else mkEntryCaller false "" 0) /\
    ent_Stack e = (if S >=? call_level c then zap_Stack rt (length (trace w))
                   else ""%string).
Proof.
  intros Hrun Hinst HT HS Hlc Hle.
  assert (Hst : stored l) by (repeat split; by eexists).
  destruct (build_entry_is_Some rt l (call_zap_level c) (call_message rt c) w Hst)
    as [e He].
  exists e. split.
  - rewrite run_call_log_at.
    by apply (log_at_emits_one rt _ _ l _ w ft base T e).
  - unfold build_entry, GetLogCallers, GetStackTraceLevel in He.
    rewrite Hlc, HS in He. cbn in He. rewrite toLevel_call_level in He.
    injection He as <-.
    unfold DefaultLoggerName, callerSkipOffset.
    destruct (decide (name l = "default"%string)), lc, (S >=? call_level c);
      by repeat split.
Qed.

End LevelMethodsMore.

Lemma only_fatal_calls_exit_witness :
  exits (Errorf quiet beep "boom"%string [] configured) = exits configured /\
  forall code : Z, st (Errorf quiet beep "boom"%string [] configured) <> Exited code.
Proof.
  destruct (only_fatal_calls_exit quiet beep (CallErrorf "boom"%string []) configured)
    as [Hexits Hst]; [ discriminate | ].
  split; [ exact Hexits | by apply Hst ].
Defined.

Lemma emitted_entry_contents_witness :
  exists e : Entry,
    emitted (Warn quiet (SetLogCallers (SetStackTraceLevel beep ErrorLevel) true)
               "boom"%string configured) = emitted configured ++ [e] /\
    ent_Level e = zapcore.WarnLevel /\
    ent_Message e = "boom"%string /\
    ent_Time e = release_time /\
    ent_LoggerName e = "beep"%string /\
    ent_Caller e = mkEntryCaller true "log/logger_test.go" 42 /\
    ent_Stack e = ""%string.
Proof.
  apply (emitted_entry_contents quiet
           (SetLogCallers (SetStackTraceLevel beep ErrorLevel) true)
           (CallWarn "boom"%string) configured default_table default_core
           InfoLevel ErrorLevel true);
    [ reflexivity | exact configured_installed | reflexivity | reflexivity
    | reflexivity | unfold call_level, WarnLevel, InfoLevel; lia ].
Defined.

(** ** The enabler of the level-gated core *)

(** The core behind zap's globals asks the default logger at every call:
    error, warn and info entries pass when the output level is at least
    that level; every other zap severity, fatal and panic included, passes
    only when the output level is at least [DebugLevel].  At [NoneLevel]
    nothing passes, at [DebugLevel] everything does. *)
Theorem enabler_follows_output_level (w : world) (l : logger) (T : Z) :
  defaultLogger w = Some l -> outputLevel l = Some T ->
  logger_enabler w zapcore.ErrorLevel = Some (T >=? ErrorLevel) /\
  logger_enabler w zapcore.WarnLevel = Some (T >=? WarnLevel) /\
  logger_enabler w zapcore.InfoLevel = Some (T >=? InfoLevel) /\
  (forall lvl : Z,
     lvl <> zapcore.ErrorLevel -> lvl <> zapcore.WarnLevel -> lvl <> zapcore.InfoLevel ->
     logger_enabler w lvl = Some (T >=? DebugLevel)) /\
  (T <= NoneLevel -> forall lvl : Z, logger_enabler w lvl = Some false) /\
  (DebugLevel <= T -> forall lvl : Z, logger_enabler w lvl = Some true).
Proof.
  intros Hl HT.
  assert (Hen : forall lvl : Z,
            logger_enabler w lvl
            = Some (T >=? (if lvl =? zapcore.ErrorLevel then ErrorLevel
                           else if lvl =? zapcore.WarnLevel then WarnLevel
                           else if lvl =? zapcore.InfoLevel then InfoLevel
                           else DebugLevel))).
  { intros lvl. unfold logger_enabler. rewrite Hl. cbn.
    unfold ErrorEnabled, WarnEnabled, InfoEnabled, DebugEnabled, enabled_at, GetOutputLevel.
    rewrite HT. by repeat case_match. }
  split; [ by rewrite Hen | ]. split; [ by rewrite Hen | ]. split; [ by rewrite Hen | ].
  split; [ | split ].
  - intros lvl He Hw Hi. rewrite Hen.
    apply Z.eqb_neq in He, Hw, Hi. by rewrite He, Hw, Hi.
  - intros Hnone lvl. rewrite Hen. f_equal.
    unfold NoneLevel, ErrorLevel, WarnLevel, InfoLevel, DebugLevel in *.
    repeat case_match; lia.
  - intros Hdebug lvl. rewrite Hen. f_equal.
    unfold NoneLevel, ErrorLevel, WarnLevel, InfoLevel, DebugLevel in *.
    repeat case_match; lia.
Qed.

Lemma enabler_follows_output_level_witness :
  logger_enabler configured zapcore.ErrorLevel = Some true /\
  logger_enabler configured zapcore.InfoLevel = Some true /\
  logger_enabler configured zapcore.FatalLevel = Some false /\
  logger_enabler configured zapcore.DebugLevel = Some false.
Proof.
  destruct (enabler_follows_output_level configured default_logger InfoLevel
              eq_refl eq_refl) as (He & _ & Hi & Hother & _).
  split; [ exact He | ]. split; [ exact Hi | ].
  split; apply Hother; discriminate.
Defined.

(** ** Sink assembly *)

Section SinkAssembly.

Context {any : Type} (rt : Runtime any).

Lemma zap_Open_inl (path : string) (w w' : world) (s : WriteSyncer) :
  zap_Open rt path w = (w', inl s) ->
  s = OpenedSink path /\ w' = emit (EvOpen path None) w.
Proof.
  unfold zap_Open.
  destruct (if decide (path = "stdout"%string \/ path = "stderr"%string)
            then None else open_error rt (length (trace w)) path);
    [ discriminate | ].
  by intros [= <- <-].
Qed.

Lemma zap_Open_inr (path : string) (w w' : world) (err : string) :
  zap_Open rt path w = (w', inr err) ->
  path <> "stdout"%string /\ path <> "stderr"%string /\
  open_error rt (length (trace w)) path = Some err /\
  w' = emit (EvOpen path (Some err)) w.
Proof.
  unfold zap_Open.
  destruct (decide (path = "stdout"%string \/ path = "stderr"%string)) as [Hs | Hs];
    [ discriminate | ].
  destruct (open_error rt (length (trace w)) path) as [e |]; [ | discriminate ].
  intros [= <- <-]. repeat split; try done; intros ->; apply Hs; first [ by left | by right ].
Qed.

Lemma length_pos_nonempty (p : string) :
  (0 <? String.length p)%nat = if decide (p = ""%string) then false else true.
Proof. by destruct p. Qed.

(** A successful [prepZap], in full. *)
Lemma prepZap_inl (opts : Options) (w w' : world) (r : Core * Core * WriteSyncer) :
  prepZap rt opts w = (w', inl r) ->
  let enc := if JSONEncoding opts then JSONEncoder else ConsoleEncoder in
  let p := OutputPath opts in
  r = (mkCore enc (composed_sink opts) (AtomicLevelAt zapcore.DebugLevel),
       mkCore enc (composed_sink opts) LoggerEnabler,
       OpenedSink p) /\
  w' = with_trace w (trace w ++ EvOpen p None ::
                       (if decide (p = ""%string) then [] else [EvOpen p None])).
Proof.
  unfold prepZap, composed_sink. cbv zeta.
  destruct (zap_Open rt (OutputPath opts) w) as [w1 [errSink | err]] eqn:H1;
    [ | discriminate ].
  apply zap_Open_inl in H1 as [-> ->].
  rewrite length_pos_nonempty.
  destruct (decide (OutputPath opts = ""%string)) as [Hp | Hp].
  - intros [= <- <-]. split; [ | reflexivity ].
    by destruct (decide (RotateOutputPath opts = ""%string)).
  - destruct (zap_Open rt (OutputPath opts) (emit (EvOpen (OutputPath opts) None) w))
      as [w2 [s | err]] eqn:H2; [ | discriminate ].
    apply zap_Open_inl in H2 as [-> ->].
    intros [= <- <-]. split.
    + by destruct (decide (RotateOutputPath opts = ""%string)).
    + unfold emit, with_trace. cbn. by rewrite <- app_assoc.
Qed.

(** A failed [prepZap], in full. *)
Lemma prepZap_inr (opts : Options) (w w' : world) (err : string) :
  prepZap rt opts w = (w', inr err) ->
  let p := OutputPath opts in
  p <> "stdout"%string /\ p <> "stderr"%string /\
  (w' = with_trace w (trace w ++ [EvOpen p (Some err)]) \/
   w' = with_trace w (trace w ++ [ EvOpen p None; EvOpen p (Some err);
                                   EvCloseSink (OpenedSink p) ])).
Proof.
  unfold prepZap. cbv zeta.
  destruct (zap_Open rt (OutputPath opts) w) as [w1 [errSink | err1]] eqn:H1.
  - apply zap_Open_inl in H1 as [-> ->].
    rewrite length_pos_nonempty.
    destruct (decide (OutputPath opts = ""%string)) as [Hp | Hp]; [ discriminate | ].
    destruct (zap_Open rt (OutputPath opts) (emit (EvOpen (OutputPath opts) None) w))
      as [w2 [s | err2]] eqn:H2; [ discriminate | ].
    apply zap_Open_inr in H2 as (Hout & Herr & _ & ->).
    intros [= <- <-]. split; [ exact Hout | ]. split; [ exact Herr | ].
    right. unfold emit, with_trace. cbn. by rewrite <- !app_assoc.
  - apply zap_Open_inr in H1 as (Hout & Herr & _ & ->).
    intros [= <- <-]. split; [ exact Hout | ]. split; [ exact Herr | ].
    by left.
Qed.

(** When [prepZap] succeeds, both cores use the encoder the options ask
    for (JSON or console) over one and the same sink: the primary output
    and the rotating file together when both are configured, the one that
    is configured otherwise; the rotating writer carries the options'
    limits, the error sink is the sink opened for [OutputPath], and that
    path was opened once, and a second time when it is not empty. *)
Theorem prepZap_assembles (opts : Options) (w w' : world)
    (alwaysOn conditionallyOn : Core) (errSink : WriteSyncer) :
  prepZap rt opts w = (w', inl (alwaysOn, conditionallyOn, errSink)) ->
  let enc := if JSONEncoding opts then JSONEncoder else ConsoleEncoder in
  let p := OutputPath opts in
  alwaysOn = mkCore enc (composed_sink opts) (AtomicLevelAt zapcore.DebugLevel) /\
  conditionallyOn = mkCore enc (composed_sink opts) LoggerEnabler /\
  errSink = OpenedSink p /\
  trace w' = trace w ++ EvOpen p None ::
               (if decide (p = ""%string) then [] else [EvOpen p None]).
Proof.
  intros H. apply prepZap_inl in H as [[= -> -> ->] ->]. by repeat split.
Qed.

(** When [prepZap] fails, [OutputPath] is a file path (the standard streams
    never fail), nothing but that path was tried, and a sink that was opened
    on the way has been closed again: either the first open was refused, or
    the first was granted, the second refused and the first sink closed. *)
Theorem prepZap_failure_releases (opts : Options) (w w' : world) (err : string) :
  prepZap rt opts w = (w', inr err) ->
  let p := OutputPath opts in
  p <> "stdout"%string /\ p <> "stderr"%string /\
  (trace w' = trace w ++ [EvOpen p (Some err)] \/
   trace w' = trace w ++ [ EvOpen p None; EvOpen p (Some err);
                           EvCloseSink (OpenedSink p) ]).
Proof.
  intros H. apply prepZap_inr in H as (Hout & Herr & [-> | ->]);
    (split; [ exact Hout | split; [ exact Herr | ] ]); first [ by left | by right ].
Qed.

End SinkAssembly.

Lemma prepZap_assembles_witness :
  mkCore ConsoleEncoder
    (Some (MultiWriteSyncer (OpenedSink "/var/log/app.log")
             (RotaterSink (mkLumberjack "/var/log/rot.log" 104857600 1000 30))))
    (AtomicLevelAt zapcore.DebugLevel)
    = mkCore ConsoleEncoder (composed_sink rotating_options)
        (AtomicLevelAt zapcore.DebugLevel) /\
  trace (fst (prepZap quiet rotating_options boot))
    = [ EvOpen "/var/log/app.log" None; EvOpen "/var/log/app.log" None ].
Proof.
  destruct (prepZap_assembles quiet rotating_options boot
              (fst (prepZap quiet rotating_options boot))
              (mkCore ConsoleEncoder
                 (Some (MultiWriteSyncer (OpenedSink "/var/log/app.log")
                          (RotaterSink (mkLumberjack "/var/log/rot.log" 104857600 1000 30))))
                 (AtomicLevelAt zapcore.DebugLevel))
              (mkCore ConsoleEncoder
                 (Some (MultiWriteSyncer (OpenedSink "/var/log/app.log")
                          (RotaterSink (mkLumberjack "/var/log/rot.log" 104857600 1000 30))))
                 LoggerEnabler)
              (OpenedSink "/var/log/app.log") eq_refl) as (Hcore & _ & _ & Htrace).
  split; [ exact Hcore | exact Htrace ].
Defined.

Lemma prepZap_failure_releases_witness :
  trace (fst (prepZap closed_fs file_options boot))
    = [ EvOpen "/var/log/app.log" (Some "permission denied"%string) ] /\
  trace (fst (prepZap flaky file_options boot))
    = [ EvOpen "/var/log/app.log" None;
        EvOpen "/var/log/app.log" (Some "too many open files"%string);
        EvCloseSink (OpenedSink "/var/log/app.log") ].
Proof.
  destruct (prepZap_failure_releases closed_fs file_options boot
              (fst (prepZap closed_fs file_options boot)) "permission denied"%string
              eq_refl) as (_ & _ & [H1 | H1]); [ | discriminate H1 ].
  destruct (prepZap_failure_releases flaky file_options boot
              (fst (prepZap flaky file_options boot)) "too many open files"%string
              eq_refl) as (_ & _ & [H2 | H2]); [ discriminate H2 | ].
  split; [ exact H1 | exact H2 ].
Defined.

(** ** What [Configure] leaves behind *)

Section ConfigureOutcome.

Context {any : Type} (rt : Runtime any).

(** The logger a [Configure] starts from: the default logger, or the fresh
    one [updateLogger] makes when there is none. *)
Local Abbreviation logger_before w :=
  (match defaultLogger w with
   | Some l => l
   | None => mkLogger "" 1 None None None
   end).

Lemma updateLogger_inv (opts : Options) (w w' : world) :
  updateLogger opts w = (w', None) ->
  exists level : Z,
    stringToLevel !! OutputLevel opts = Some level /\
    ((StackTraceLevel opts = ""%string /\
      w' = with_defaultLogger w
             (SetLogCallers (SetOutputLevel (logger_before w) level) (LogCaller opts))) \/
     (StackTraceLevel opts <> ""%string /\
      exists S : Z,
        stringToLevel !! StackTraceLevel opts = Some S /\
        w' = with_defaultLogger w
               (SetLogCallers
                  (SetStackTraceLevel (SetOutputLevel (logger_before w) level) S)
                  (LogCaller opts)))).
Proof.
  unfold updateLogger.
  destruct (stringToLevel !! OutputLevel opts) as [level |]; [ | discriminate ].
  destruct (decide (StackTraceLevel opts = ""%string)) as [Hs | Hs].
  - rewrite Hs. cbv zeta.
    change (String.length "" =? 0)%nat with true. cbv iota.
    intros [= <-]. exists level. split; [ reflexivity | by left ].
  - rewrite (nonempty_length _ Hs). cbv zeta.
    destruct (stringToLevel !! StackTraceLevel opts) as [S |]; [ | discriminate ].
    intros [= <-]. exists level. split; [ reflexivity | right ].
    split; [ exact Hs | by exists S ].
Qed.

Lemma updateLogger_error_frame (opts : Options) (w w' : world) (err : string) :
  updateLogger opts w = (w', Some err) ->
  exists l : logger, w' = with_defaultLogger w l.
Proof.
  unfold updateLogger. cbv zeta.
  destruct (stringToLevel !! OutputLevel opts) as [level |];
    [ | intros [= <- _]; by eexists ].
  destruct (String.length (StackTraceLevel opts) =? 0)%nat; [ discriminate | ].
  destruct (stringToLevel !! StackTraceLevel opts); [ discriminate | ].
  intros [= <- _]. by eexists.
Qed.

(** A [Configure] that returns an error has installed nothing: the
    registry, zap's globals, the redirected standard log and the status of
    the process are what they were. *)
Theorem Configure_failure_keeps_registry (opts : Options) (w w' : world) (err : string) :
  Configure rt opts w = (w', Some err) ->
  funcs w' = funcs w /\ zap_globals w' = zap_globals w /\
  std_log w' = std_log w /\ st w' = st w.
Proof.
  unfold Configure. destruct (is_running w); [ | discriminate ].
  destruct (updateLogger opts w) as [w1 [e1 |]] eqn:Hupd.
  - intros [= <- _]. apply updateLogger_error_frame in Hupd as [l ->]. by repeat split.
  - apply updateLogger_inv in Hupd as (level & _ & Hw1).
    assert (Hframe : funcs w1 = funcs w /\ zap_globals w1 = zap_globals w /\
                     std_log w1 = std_log w /\ st w1 = st w)
      by (destruct Hw1 as [[_ ->] | (_ & S & _ & ->)]; by repeat split).
    destruct (prepZap rt opts w1) as [w2 [[[base cond] errSink] | e2]] eqn:Hprep.
    + repeat case_match; discriminate.
    + intros [= <- _]. apply prepZap_inr in Hprep as (_ & _ & [-> | ->]); exact Hframe.
Qed.

(** A successful [Configure], in full. *)
Lemma Configure_success (opts : Options) (w w' : world) :
  is_running w = true -> Configure rt opts w = (w', None) -> is_running w' = true ->
  exists (w1 : world) (l : logger) (S : Z) (evs : list event),
    updateLogger opts w = (w1, None) /\
    defaultLogger w1 = Some l /\ stackTraceLevel l = Some S /\
    logCallers l = Some (LogCaller opts) /\
    let enc := if JSONEncoding opts then JSONEncoder else ConsoleEncoder in
    let base := mkCore enc (composed_sink opts) (AtomicLevelAt zapcore.DebugLevel) in
    let errSink := OpenedSink (OutputPath opts) in
    let zl :=
      mkZapLogger (mkCore enc (composed_sink opts) LoggerEnabler)
        (([ErrorOutput errSink; AddCallerSkip 1]
            ++ (if LogCaller opts then [AddCaller] else []))
           ++ (if S =? NoneLevel then []
               else [AddStacktrace (index_level levelToZap S)])) in
    w' = mkWorld (Some (mkFunctionTable (Some base) (Some base) os_Exit errSink (Some base)))
           (Some l) (Some zl) (Some zl) (trace w ++ evs) Running.
Proof.
  intros Hrun Hcfg Hrun'. unfold Configure in Hcfg. rewrite Hrun in Hcfg.
  destruct (updateLogger opts w) as [w1 [e1 |]] eqn:Hupd; [ discriminate | ].
  pose proof Hupd as Hinv. apply updateLogger_inv in Hinv as (level & _ & Hw1).
  assert (Hw1' : exists l : logger,
             w1 = with_defaultLogger w l /\ logCallers l = Some (LogCaller opts))
    by (destruct Hw1 as [[_ ->] | (_ & S & _ & ->)]; by eexists).
  destruct Hw1' as (l & -> & Hlc). clear Hw1.
  destruct (prepZap rt opts (with_defaultLogger w l))
    as [w2 [[[base cond] errSink] | e2]] eqn:Hprep; [ | discriminate ].
  apply prepZap_inl in Hprep as [[= -> -> ->] ->].
  cbn [defaultLogger with_funcs with_trace with_defaultLogger] in Hcfg.
  unfold GetLogCallers, GetStackTraceLevel in Hcfg. rewrite Hlc in Hcfg.
  destruct (stackTraceLevel l) as [S |] eqn:HS;
    [ | injection Hcfg as <-; discriminate ].
  injection Hcfg as <-.
  exists (with_defaultLogger w l), l, S. eexists.
  split; [ reflexivity | ]. split; [ reflexivity | ].
  split; [ exact HS | ]. split; [ exact Hlc | ].
  cbv zeta. unfold with_zap, with_funcs, with_trace, with_defaultLogger. cbn.
  unfold is_running in Hrun. destruct (st w); try discriminate.
  f_equal.
  - by destruct (LogCaller opts), (S =? NoneLevel).
  - by destruct (LogCaller opts), (S =? NoneLevel).
Qed.

(** A successful [Configure] stores the options in the default logger: the
    output level and the stack-trace level are the parsed names (an empty
    [StackTraceLevel] keeps the level stored before), the caller flag is
    [LogCaller]; a logger that was there keeps its name and caller skip. *)
Theorem Configure_applies_options (opts : Options) (w w' : world) :
  is_running w = true -> Configure rt opts w = (w', None) -> is_running w' = true ->
  exists l' : logger,
    defaultLogger w' = Some l' /\
    is_Some (outputLevel l') /\
    outputLevel l' = stringToLevel !! OutputLevel opts /\
    logCallers l' = Some (LogCaller opts) /\
    is_Some (stackTraceLevel l') /\
    stackTraceLevel l'
      = (if decide (StackTraceLevel opts = ""%string)
         then defaultLogger w ≫= stackTraceLevel
         else stringToLevel !! StackTraceLevel opts) /\
    (forall l : logger,
       defaultLogger w = Some l -> name l' = name l /\ callerSkip l' = callerSkip l).
Proof.
  intros Hrun Hcfg Hrun'.
  destruct (Configure_success opts w w' Hrun Hcfg Hrun')
    as (w1 & l' & S & evs & Hupd & Hl' & HS & Hlc & ->).
  exists l'. split; [ reflexivity | ].
  apply updateLogger_inv in Hupd as (level & Hlevel & Hw1).
  rewrite Hlevel.
  destruct Hw1 as [[Hempty ->] | (Hne & S' & HS' & ->)];
    cbn in Hl'; injection Hl' as <-; cbn in *.
  - rewrite decide_True by exact Hempty.
    split; [ by eexists | ]. split; [ reflexivity | ]. split; [ reflexivity | ].
    split; [ by eexists | ].
    split; [ by destruct (defaultLogger w) | ].
    by intros l ->.
  - rewrite decide_False by exact Hne. rewrite HS'.
    split; [ by eexists | ]. split; [ reflexivity | ]. split; [ reflexivity | ].
    split; [ by eexists | ]. split; [ reflexivity | ].
    by intros l ->.
Qed.

(** A successful [Configure] installs a fresh table: [write], [sync] and
    [close] all go to one core that accepts every level, over the composed
    sink; the exit function is [os.Exit] again, whatever was stored before;
    the error sink is the sink of [OutputPath].  zap's globals and the
    standard log both get the level-gated core over the same sink, with
    caller annotation when [LogCaller] is set and stack traces from the
    logger's stack-trace level on, unless that is [NoneLevel]. *)
Theorem Configure_installs_table (opts : Options) (w w' : world) :
  is_running w = true -> Configure rt opts w = (w', None) -> is_running w' = true ->
  exists S : Z,
    (defaultLogger w' ≫= stackTraceLevel) = Some S /\
    let enc := if JSONEncoding opts then JSONEncoder else ConsoleEncoder in
    let base := mkCore enc (composed_sink opts) (AtomicLevelAt zapcore.DebugLevel) in
    let errSink := OpenedSink (OutputPath opts) in
    let zl :=
      mkZapLogger (mkCore enc (composed_sink opts) LoggerEnabler)
        (([ErrorOutput errSink; AddCallerSkip 1]
            ++ (if LogCaller opts then [AddCaller] else []))
           ++ (if S =? NoneLevel then []
               else [AddStacktrace (index_level levelToZap S)])) in
    funcs w' = Some (mkFunctionTable (Some base) (Some base) os_Exit errSink (Some base)) /\
    zap_globals w' = Some zl /\ std_log w' = Some zl /\
    exists evs : list event, trace w' = trace w ++ evs.
Proof.
  intros Hrun Hcfg Hrun'.
  destruct (Configure_success opts w w' Hrun Hcfg Hrun')
    as (w1 & l' & S & evs & _ & _ & HS & _ & ->).
  exists S. cbn. split; [ exact HS | ]. repeat split. by exists evs.
Qed.

(** Configuring twice with the same options changes nothing the second
    time but the trace: registry, default logger and zap's globals are the
    same after the second successful call as after the first. *)
Theorem Configure_idempotent (opts : Options) (w w1 w2 : world) :
  is_running w = true ->
  Configure rt opts w = (w1, None) -> is_running w1 = true ->
  Configure rt opts w1 = (w2, None) -> is_running w2 = true ->
  funcs w2 = funcs w1 /\ defaultLogger w2 = defaultLogger w1 /\
  zap_globals w2 = zap_globals w1 /\ std_log w2 = std_log w1.
Proof.
  intros Hrun H1 Hrun1 H2 Hrun2.
  destruct (Configure_success opts w w1 Hrun H1 Hrun1)
    as (u1 & l1 & S1 & evs1 & Hupd1 & Hl1 & HS1 & Hlc1 & Hw1).
  destruct (Configure_success opts w1 w2 Hrun1 H2 Hrun2)
    as (u2 & l2 & S2 & evs2 & Hupd2 & Hl2 & HS2 & Hlc2 & Hw2).
  assert (Hsame : l2 = l1).
  { apply updateLogger_inv in Hupd1 as (level1 & Hlevel1 & Hu1).
    apply updateLogger_inv in Hupd2 as (level2 & Hlevel2 & Hu2).
    rewrite Hlevel1 in Hlevel2. injection Hlevel2 as <-.
    assert (Hd1 : defaultLogger w1 = Some l1) by (rewrite Hw1; reflexivity).
    rewrite Hd1 in Hu2.
    destruct Hu1 as [[Hempty ->] | (Hne & S & HS & ->)];
      destruct Hu2 as [[Hempty' ->] | (Hne' & S' & HS' & ->)];
      try congruence;
      cbn in Hl1, Hl2; injection Hl1 as <-; injection Hl2 as <-;
      [ reflexivity | ].
    rewrite HS in HS'. by injection HS' as <-. }
  subst l2. rewrite HS1 in HS2. injection HS2 as <-.
  rewrite Hw2, Hw1. by repeat split.
Qed.

End ConfigureOutcome.

Lemma Configure_failure_keeps_registry_witness :
  funcs (fst (Configure closed_fs file_options configured)) = funcs configured /\
  zap_globals (fst (Configure closed_fs file_options configured)) = zap_globals configured /\
  std_log (fst (Configure closed_fs file_options configured)) = std_log configured /\
  st (fst (Configure closed_fs file_options configured)) = st configured.
Proof.
  exact (Configure_failure_keeps_registry closed_fs file_options configured
           (fst (Configure closed_fs file_options configured))
           "permission denied"%string eq_refl).
Defined.

Lemma Configure_applies_options_witness :
  exists l' : logger,
    defaultLogger (fst (Configure quiet verbose_options configured)) = Some l' /\
    outputLevel l' = Some DebugLevel /\
    logCallers l' = Some true /\
    stackTraceLevel l' = Some ErrorLevel /\
    name l' = ""%string /\ callerSkip l' = 1.
Proof.
  destruct (Configure_applies_options quiet verbose_options configured
              (fst (Configure quiet verbose_options configured))
              eq_refl eq_refl eq_refl)
    as (l' & Hl' & _ & Hout & Hlc & _ & Hstack & Hname).
  exists l'. split; [ exact Hl' | ]. split; [ exact Hout | ].
  split; [ exact Hlc | ]. split; [ exact Hstack | ].
  exact (Hname default_logger eq_refl).
Defined.

Lemma Configure_installs_table_witness :
  (exitProcess <$> funcs (fst (Configure quiet verbose_options (stub_exit configured))))
    = Some os_Exit /\
  (zl_options <$> zap_globals (fst (Configure quiet verbose_options (stub_exit configured))))
    = Some [ ErrorOutput (OpenedSink "stdout"); AddCallerSkip 1; AddCaller;
             AddStacktrace zapcore.ErrorLevel ].
Proof.
  destruct (Configure_installs_table quiet verbose_options (stub_exit configured)
              (fst (Configure quiet verbose_options (stub_exit configured)))
              eq_refl eq_refl eq_refl)
    as (S & HS & Hfuncs & Hzap & _).
  injection HS as <-. rewrite Hfuncs, Hzap. by split.
Defined.

Lemma Configure_idempotent_witness :
  funcs (fst (Configure quiet verbose_options
                (fst (Configure quiet verbose_options configured))))
    = funcs (fst (Configure quiet verbose_options configured)) /\
  defaultLogger (fst (Configure quiet verbose_options
                        (fst (Configure quiet verbose_options configured))))
    = defaultLogger (fst (Configure quiet verbose_options configured)).
Proof.
  assert (H1 : Configure quiet verbose_options configured
               = (fst (Configure quiet verbose_options configured), None))
    by (vm_compute; reflexivity).
  assert (H2 : Configure quiet verbose_options
                 (fst (Configure quiet verbose_options configured))
               = (fst (Configure quiet verbose_options
                         (fst (Configure quiet verbose_options configured))), None))
    by (vm_compute; reflexivity).
  assert (Hr1 : is_running (fst (Configure quiet verbose_options configured)) = true)
    by (vm_compute; reflexivity).
  assert (Hr2 : is_running (fst (Configure quiet verbose_options
                                   (fst (Configure quiet verbose_options configured))))
                = true)
    by (vm_compute; reflexivity).
  destruct (Configure_idempotent quiet verbose_options configured _ _
              eq_refl H1 Hr1 H2 Hr2) as (Hf & Hl & _).
  split; [ exact Hf | exact Hl ].
Defined.

(** ** Logging keeps working *)

Section Health.

Context {any : Type} (rt : Runtime any).

Lemma healthy_init : healthy (init rt boot).
Proof.
  split; [ discriminate | ]. intros _.
  eexists _, _, _. repeat split; try reflexivity; by eexists.
Qed.

Lemma updateLogger_keeps_stored (opts : Options) (w w' : world) (l : logger)
    (e : option string) :
  defaultLogger w = Some l -> stored l -> updateLogger opts w = (w', e) ->
  exists l' : logger, w' = with_defaultLogger w l' /\ stored l'.
Proof.
  intros Hl (Hout & Hstack & Hlc). unfold updateLogger. rewrite Hl. cbv zeta.
  destruct (stringToLevel !! OutputLevel opts) as [level |];
    [ | intros [= <- _]; by exists l ].
  destruct (String.length (StackTraceLevel opts) =? 0)%nat.
  - intros [= <- _]. eexists. split; [ reflexivity | ].
    repeat split; try by eexists. exact Hstack.
  - destruct (stringToLevel !! StackTraceLevel opts) as [S |]; intros [= <- _];
      (eexists; split; [ reflexivity | ]); repeat split; try by eexists.
    + exact Hstack.
    + exact Hlc.
Qed.

Lemma prepZap_inl_path (opts : Options) (w w' : world) (r : Core * Core * WriteSyncer) :
  refuses_empty_path rt -> prepZap rt opts w = (w', inl r) ->
  OutputPath opts <> ""%string.
Proof.
  intros Hempty Hprep Hp. unfold prepZap in Hprep. cbv zeta in Hprep.
  rewrite Hp in Hprep. unfold zap_Open in Hprep at 1.
  destruct (decide (""%string = "stdout"%string \/ ""%string = "stderr"%string))
    as [[? | ?] | _]; [ discriminate | discriminate | ].
  destruct (Hempty (length (trace w))) as [err Herr]. rewrite Herr in Hprep.
  discriminate Hprep.
Qed.

Lemma composed_sink_is_Some (opts : Options) :
  OutputPath opts <> ""%string -> is_Some (composed_sink opts).
Proof.
  intros Hp. unfold composed_sink.
  destruct (decide (OutputPath opts = ""%string)); [ done | ].
  destruct (decide (RotateOutputPath opts = ""%string)); by eexists.
Qed.

Lemma Configure_healthy (opts : Options) (w : world) :
  refuses_empty_path rt -> healthy w -> healthy (fst (Configure rt opts w)).
Proof.
  intros Hempty Hw. pose proof Hw as [Hnp Hh]. unfold Configure.
  destruct (is_running w) eqn:Hrun; [ | exact Hw ].
  destruct (Hh eq_refl) as (l & ft & base & Hl & Hst & Hinst & Hsync & Hclose).
  destruct (updateLogger opts w) as [w1 e1] eqn:Hupd.
  destruct (updateLogger_keeps_stored opts w w1 l e1 Hl Hst Hupd) as (l' & -> & Hst').
  destruct e1 as [err |].
  { cbn. split; [ exact Hnp | ]. intros _. by exists l', ft, base. }
  destruct (prepZap rt opts (with_defaultLogger w l'))
    as [w2 [[[base' cond] errSink] | err]] eqn:Hprep.
  - pose proof (prepZap_inl_path _ _ _ _ Hempty Hprep) as Hp.
    apply prepZap_inl in Hprep as [[= -> -> ->] ->].
    cbn [defaultLogger with_funcs with_trace with_defaultLogger].
    destruct Hst' as ([T' HT'] & [S HS] & [lc Hlc]).
    unfold GetLogCallers, GetStackTraceLevel. rewrite Hlc, HS. cbn.
    split; [ exact Hnp | ]. intros _.
    eexists l', _, _. split; [ reflexivity | ].
    split; [ repeat split; by eexists | ].
    split.
    { split; [ reflexivity | split; [ reflexivity | ] ].
      cbn. by apply composed_sink_is_Some. }
    split; reflexivity.
  - apply prepZap_inr in Hprep as (_ & _ & [-> | ->]); cbn;
      (split; [ exact Hnp | ]); intros _; by exists l', ft, base.
Qed.

Lemma log_at_healthy (required level : Z) (l : logger) (msg : string) (w : world) :
  healthy w -> defaultLogger w = Some l ->
  healthy (log_at rt required level l msg w).
Proof.
  intros Hw Hl. pose proof Hw as [Hnp Hh].
  destruct (is_running w) eqn:Hrun; [ | unfold log_at; by rewrite Hrun ].
  destruct (Hh eq_refl) as (l0 & ft & base & Hl0 & Hst & Hinst & Hsync & Hclose).
  rewrite Hl in Hl0. injection Hl0 as <-.
  destruct (build_entry_is_Some rt l level msg w Hst) as [e He].
  destruct Hst as ([T HT] & Hstack & Hlc).
  destruct (log_at_frame rt required level l msg w) as (_ & Hf & Hd & _).
  split.
  - rewrite (log_at_installed rt _ _ l _ w ft base T e Hrun Hinst HT He).
    cbv zeta. unfold call_exit.
    repeat case_match; cbn; try discriminate; exact Hnp.
  - intros _. exists l, ft, base. rewrite Hd.
    split; [ exact Hl | ].
    split; [ split; [ by eexists | by split ] | ].
    split; [ | by split ].
    destruct Hinst as (Hft & Hwr & Hout). unfold installed. by rewrite Hf.
Qed.

Lemma package_call_run_call (c : @call any) (w : world) :
  package_call rt c w = on_defaultLogger (fun l => run_call rt l c) w.
Proof. by destruct c. Qed.

Lemma package_call_healthy (c : @call any) (w : world) :
  healthy w -> healthy (package_call rt c w).
Proof.
  intros Hw. rewrite package_call_run_call. unfold on_defaultLogger.
  destruct (is_running w) eqn:Hrun; [ | exact Hw ].
  destruct Hw as [Hnp Hh].
  destruct (Hh Hrun) as (l & ft & base & Hl & Hrest).
  rewrite Hl, run_call_log_at. apply log_at_healthy; [ | exact Hl ].
  split; [ exact Hnp | intros _; by exists l, ft, base ].
Qed.

Lemma set_defaultLogger_healthy (f : logger -> logger) (w : world) :
  (forall l : logger, stored l -> stored (f l)) ->
  healthy w -> healthy (set_defaultLogger f w).
Proof.
  intros Hf Hw. unfold set_defaultLogger.
  destruct (is_running w) eqn:Hrun; [ | exact Hw ].
  destruct Hw as [Hnp Hh].
  destruct (Hh Hrun) as (l & ft & base & Hl & Hst & Hinst & Hsc).
  rewrite Hl. split; [ exact Hnp | ]. intros _.
  exists (f l), ft, base. split; [ reflexivity | ]. split; [ by apply Hf | by split ].
Qed.

Lemma set_exitProcess_healthy (f : exitFunc) (w : world) :
  healthy w -> healthy (set_exitProcess f w).
Proof.
  intros Hw. unfold set_exitProcess.
  destruct (is_running w) eqn:Hrun; [ | exact Hw ].
  destruct Hw as [Hnp Hh].
  destruct (Hh Hrun) as (l & ft & base & Hl & Hst & (Hft & Hwr & Hout) & Hsync & Hclose).
  rewrite Hft. split; [ exact Hnp | ]. intros _.
  eexists l, _, base. split; [ exact Hl | ]. split; [ exact Hst | ].
  split; [ split; [ reflexivity | by split ] | by split ].
Qed.

Lemma step_healthy (a : action) (w : world) :
  refuses_empty_path rt -> ~ passes_nil a -> healthy w -> healthy (step rt a w).
Proof.
  intros Hempty Hnil Hw.
  destruct a as [[opts |] | c | level | level | b | f]; cbn [step Configure_ptr].
  - by apply Configure_healthy.
  - by destruct Hnil.
  - by apply package_call_healthy.
  - apply set_defaultLogger_healthy; [ | exact Hw ].
    intros l (_ & Hs & Hc). split; [ by eexists | by split ].
  - apply set_defaultLogger_healthy; [ | exact Hw ].
    intros l (Ho & _ & Hc). split; [ exact Ho | split; [ by eexists | exact Hc ] ].
  - apply set_defaultLogger_healthy; [ | exact Hw ].
    intros l (Ho & Hs & _). split; [ exact Ho | split; [ exact Hs | by eexists ] ].
  - by apply set_exitProcess_healthy.
Qed.

Lemma run_healthy (acts : list action) (w : world) :
  refuses_empty_path rt -> Forall (fun a => ~ passes_nil a) acts ->
  healthy w -> healthy (run rt acts w).
Proof.
  intros Hempty Hacts. revert w. unfold run.
  induction Hacts as [| a acts Ha Hacts IH]; intros w Hw; [ exact Hw | ].
  cbn [fold_left]. apply IH. by apply step_healthy.
Qed.

(** After [init], on a system that opens no file for the empty path, a
    sequence of steps none of which passes a nil pointer never panics,
    whatever it is made of: [Configure] calls (failing ones included),
    package-level log calls, stores to the default logger's settings and
    replacements of the exit function by [os.Exit] or by a function that
    returns.  While the process runs there is a default logger with all
    settings stored and an installed table over an actual sink.  The nil
    pointer is a real limit: [Configure(nil)] panics in every running
    state. *)
Theorem logging_never_panics (acts : list action) :
  refuses_empty_path rt ->
  (Forall (fun a => ~ passes_nil a) acts ->
   st (run rt acts (init rt boot)) <> Panicked /\
   healthy (run rt acts (init rt boot))) /\
  (forall w : world,
     is_running w = true -> st (step rt (ActConfigure None) w) = Panicked).
Proof.
  intros Hempty. split.
  - intros Hacts.
    assert (H : healthy (run rt acts (init rt boot)))
      by (apply run_healthy; [ exact Hempty | exact Hacts | apply healthy_init ]).
    split; [ apply H | exact H ].
  - intros w Hrun. cbn [step Configure_ptr]. by rewrite Hrun.
Qed.


Section Flushing.

Variable sync_error : nat -> Core -> option string.

(** In a state where logging works, [Sync] flushes the core that [write]
    goes to and returns what that flush returns; [Close] does the same one
    flush and returns nil whatever the flush returned. *)
Theorem Close_swallows_sync_error (w : world) (flushed : list (Core * option string)) :
  healthy w -> is_running w = true ->
  exists base : Core,
    (funcs w ≫= write) = Some base /\
    Sync sync_error w flushed
      = (w, flushed ++ [(base, sync_error (length flushed) base)],
         sync_error (length flushed) base) /\
    Close sync_error w flushed
      = (w, flushed ++ [(base, sync_error (length flushed) base)], None).
Proof.
  intros [_ Hh] Hrun.
  destruct (Hh Hrun) as (l & ft & base & _ & _ & (Hft & Hwr & [snk Hout]) & Hsync & Hclose).
  exists base. rewrite Hft. cbn. split; [ exact Hwr | ].
  unfold Sync, Close, Core_Sync. by rewrite Hrun, Hft, Hsync, Hclose, Hout.
Qed.

End Flushing.

End Health.

Lemma strict_refuses_empty_path : refuses_empty_path strict.
Proof. intros n. by eexists. Qed.

Lemma logging_never_panics_witness :
  st (run strict
        [ ActCall (CallInfo "up"%string); ActConfigure (Some half_valid_options);
          ActSetOutputLevel NoneLevel;
          ActConfigure (Some (with_OutputPath DefaultOptions ""));
          ActSetExit (returning_exit 0); ActConfigure (Some verbose_options);
          ActCall (CallFatal "down"%string); ActSetExit os_Exit;
          ActCall (CallDebugf "%s"%string ["again"%string]) ]
        (init strict boot)) <> Panicked /\
  st (step strict (ActConfigure None) (init strict boot)) = Panicked.
Proof.
  destruct (logging_never_panics strict
              [ ActCall (CallInfo "up"%string); ActConfigure (Some half_valid_options);
                ActSetOutputLevel NoneLevel;
                ActConfigure (Some (with_OutputPath DefaultOptions ""));
                ActSetExit (returning_exit 0); ActConfigure (Some verbose_options);
                ActCall (CallFatal "down"%string); ActSetExit os_Exit;
                ActCall (CallDebugf "%s"%string ["again"%string]) ]
              strict_refuses_empty_path) as [Hsafe Hnil].
  split.
  - apply Hsafe.
    repeat (apply Forall_cons_2; [ unfold passes_nil; discriminate | ]).
    apply Forall_nil_2.
  - apply Hnil. vm_compute. reflexivity.
Defined.


Lemma Close_swallows_sync_error_witness :
  exists base : Core,
    (funcs configured ≫= write) = Some base /\
    Sync (fun _ _ => Some "bad file descriptor"%string) configured []
      = (configured, [(base, Some "bad file descriptor"%string)],
         Some "bad file descriptor"%string) /\
    Close (fun _ _ => Some "bad file descriptor"%string) configured []
      = (configured, [(base, Some "bad file descriptor"%string)], None).
Proof.
  exact (Close_swallows_sync_error (fun _ _ => Some "bad file descriptor"%string)
           configured [] (healthy_init quiet) eq_refl).
Defined.

(** ** Opening a URL *)

(** [OpenURL] hands the URL to the system's opener exactly when the URL
    parses and, on Linux, [xdg-open] is found; then it returns what the
    opener returns.  A URL that does not parse gives the parse error.  On
    Linux without [xdg-open] nothing is opened and the call still reports
    success. *)
Theorem OpenURL_launches (env : browser.Env) (u : string) :
  (fst (browser.OpenURL env u) = [u] <->
   browser.url_Parse env u = None /\
   (browser.GOOS env <> "linux"%string \/ browser.exec_LookPath env "xdg-open" = None)) /\
  (fst (browser.OpenURL env u) <> [u] -> fst (browser.OpenURL env u) = []) /\
  (fst (browser.OpenURL env u) = [u] ->
   snd (browser.OpenURL env u) = browser.pkg_browser_OpenURL env u) /\
  (forall err : string,
     browser.url_Parse env u = Some err -> browser.OpenURL env u = ([], Some err)) /\
  (browser.url_Parse env u = None -> browser.GOOS env = "linux"%string ->
   is_Some (browser.exec_LookPath env "xdg-open") ->
   browser.OpenURL env u = ([], None)).
Proof.
  unfold browser.OpenURL.
  destruct (browser.url_Parse env u) as [perr |] eqn:Hparse.
  { split; [ split; [ discriminate | by intros [? _] ] | ].
    split; [ done | ]. split; [ discriminate | ].
    split; [ by intros err [= ->] | discriminate ]. }
  destruct (decide (browser.GOOS env = "linux"%string)) as [Hos | Hos].
  - destruct (browser.exec_LookPath env "xdg-open") as [lerr |] eqn:Hlook.
    + split; [ split; [ discriminate | intros [_ [? | ?]]; done ] | ].
      split; [ done | ]. split; [ discriminate | ].
      split; [ discriminate | done ].
    + split; [ split; [ intros _; split; [ done | by right ] | done ] | ].
      split; [ done | ]. split; [ done | ].
      split; [ discriminate | ]. by intros _ _ [? ?].
  - split; [ split; [ intros _; split; [ done | by left ] | done ] | ].
    split; [ done | ]. split; [ done | ].
    split; [ discriminate | done ].
Qed.

Lemma OpenURL_launches_witness :
  browser.OpenURL headless_linux "https://kusionstack.io" = ([], None).
Proof.
  destruct (OpenURL_launches headless_linux "https://kusionstack.io")
    as (_ & _ & _ & _ & Hquiet).
  apply Hquiet; [ reflexivity | reflexivity | by eexists ].
Defined.

(** ** Timestamps sort by time *)

Lemma decimal_length (width : nat) (n : Z) : length (decimal width n) = width.
Proof.
  revert n. induction width as [| w IH]; intros n; [ reflexivity | ].
  cbn [decimal]. rewrite length_app, IH. simpl. lia.
Qed.

Lemma bytes_ltb_app (a1 a2 b1 b2 : list Z) :
  length a1 = length a2 ->
  bytes_ltb (a1 ++ b1) (a2 ++ b2)
  = bytes_ltb a1 a2 || (bool_decide (a1 = a2) && bytes_ltb b1 b2).
Proof.
  revert a2. induction a1 as [| x a1 IH]; intros [| y a2] Hlen; try discriminate Hlen.
  - reflexivity.
  - cbn [app bytes_ltb]. injection Hlen as Hlen. rewrite (IH a2 Hlen).
    destruct (Z.eqb_spec x y) as [-> | Hne].
    + rewrite Z.ltb_irrefl. cbn [orb andb].
      destruct (decide (a1 = a2)) as [-> | Hne].
      * by rewrite !bool_decide_eq_true_2.
      * assert (Hcons : y :: a1 <> y :: a2) by (intros [= Heq]; by apply Hne).
        by rewrite (bool_decide_eq_false_2 _ Hne), (bool_decide_eq_false_2 _ Hcons).
    + rewrite (bool_decide_eq_false_2 (x :: a1 = y :: a2))
        by (intros [= Hx _]; by apply Hne).
      cbn [andb]. by rewrite !orb_false_r.
Qed.

Lemma decimal_inj (width : nat) (n m : Z) :
  0 <= n < 10 ^ Z.of_nat width -> 0 <= m < 10 ^ Z.of_nat width ->
  decimal width n = decimal width m -> n = m.
Proof.
  intros Hn Hm Heq.
  rewrite <- (digits_value_decimal_small width n Hn),
          <- (digits_value_decimal_small width m Hm).
  by rewrite Heq.
Qed.

Lemma decimal_ltb (width : nat) (n m : Z) :
  0 <= n < 10 ^ Z.of_nat width -> 0 <= m < 10 ^ Z.of_nat width ->
  bytes_ltb (decimal width n) (decimal width m) = (n <? m).
Proof.
  revert n m. induction width as [| w IH]; intros n m Hn Hm.
  - simpl in *. symmetry. apply Z.ltb_ge. lia.
  - rewrite Nat2Z.inj_succ, Z.pow_succ_r in Hn, Hm by lia.
    assert (Hn' : 0 <= n / 10 < 10 ^ Z.of_nat w)
      by (split; [ apply Z.div_pos | apply Z.div_lt_upper_bound ]; lia).
    assert (Hm' : 0 <= m / 10 < 10 ^ Z.of_nat w)
      by (split; [ apply Z.div_pos | apply Z.div_lt_upper_bound ]; lia).
    cbn [decimal]. rewrite bytes_ltb_app by (by rewrite !decimal_length).
    rewrite (IH _ _ Hn' Hm'). cbn [bytes_ltb]. rewrite andb_false_r, orb_false_r.
    change (chr "0") with 48.
    destruct (decide (decimal w (n / 10) = decimal w (m / 10))) as [Heq | Hne].
    + rewrite bool_decide_eq_true_2 by exact Heq.
      apply (decimal_inj w _ _ Hn' Hm') in Heq.
      cbn [andb]. rewrite Heq, Z.ltb_irrefl. cbn [orb].
      destruct (Z.ltb_spec (48 + n mod 10) (48 + m mod 10));
        destruct (Z.ltb_spec n m); try reflexivity;
        Z.div_mod_to_equations; lia.
    + rewrite bool_decide_eq_false_2 by exact Hne.
      cbn [andb]. rewrite orb_false_r.
      assert (n / 10 <> m / 10) by (intros H; apply Hne; by rewrite H).
      destruct (Z.ltb_spec (n / 10) (m / 10));
        destruct (Z.ltb_spec n m); try reflexivity;
        Z.div_mod_to_equations; lia.
Qed.

(** One zero-padded field, its separator and the rest of the text compare
    like the number and the rest. *)
Lemma field_ltb (width : nat) (n m sep : Z) (r1 r2 : list Z) :
  0 <= n < 10 ^ Z.of_nat width -> 0 <= m < 10 ^ Z.of_nat width ->
  bytes_ltb (decimal width n ++ sep :: r1) (decimal width m ++ sep :: r2)
  = (n <? m) || ((n =? m) && bytes_ltb r1 r2).
Proof.
  intros Hn Hm. rewrite bytes_ltb_app by (by rewrite !decimal_length).
  rewrite (decimal_ltb width n m Hn Hm). cbn [bytes_ltb].
  rewrite Z.ltb_irrefl, Z.eqb_refl. cbn [orb andb]. f_equal. f_equal.
  destruct (Z.eqb_spec n m) as [-> | Hne].
  - by apply bool_decide_eq_true_2.
  - apply bool_decide_eq_false_2. intros Heq. by apply Hne, (decimal_inj width).
Qed.

(** For times with a year in 0..9999 the byte-wise order of the timestamps
    is the order of the instants, read to the microsecond, and two
    timestamps are equal exactly when the times agree to the microsecond. *)
Theorem timestamps_sort_by_time (t1 t2 : Time) :
  wf_time t1 -> wf_time t2 -> 0 <= t_year t1 <= 9999 -> 0 <= t_year t2 <= 9999 ->
  bytes_ltb (formatDate_buf t1) (formatDate_buf t2) = before_micros t1 t2 /\
  (formatDate_buf t1 = formatDate_buf t2 <-> to_micros t1 = to_micros t2).
Proof.
  intros Hwf1 Hwf2 Hy1 Hy2.
  rewrite (formatDate_buf_render t1 Hwf1 Hy1), (formatDate_buf_render t2 Hwf2 Hy2).
  split.
  - destruct t1 as [y1 mo1 d1 h1 mi1 s1 ns1], t2 as [y2 mo2 d2 h2 mi2 s2 ns2].
    unfold wf_time in Hwf1, Hwf2. cbn in Hwf1, Hwf2, Hy1, Hy2.
    assert (Hus1 : 0 <= ns1 / 1000 < 1000000)
      by (split; [ apply Z.div_pos | apply Z.div_lt_upper_bound ]; lia).
    assert (Hus2 : 0 <= ns2 / 1000 < 1000000)
      by (split; [ apply Z.div_pos | apply Z.div_lt_upper_bound ]; lia).
    unfold render_utc, before_micros, time_fields.
    cbn [t_year t_month t_day t_hour t_minute t_second t_nanosecond app].
    rewrite !field_ltb
      by (first [ change (10 ^ Z.of_nat 4) with 10000
                | change (10 ^ Z.of_nat 2) with 100
                | change (10 ^ Z.of_nat 6) with 1000000 ]; lia).
    cbn [bytes_ltb]. reflexivity.
  - split.
    + intros Heq. rewrite <- (parse_render t1 Hwf1 Hy1), <- (parse_render t2 Hwf2 Hy2).
      by rewrite Heq.
    + unfold to_micros, render_utc. intros [= -> -> -> -> -> -> Hns].
      by replace (t_nanosecond t2 / 1000) with (t_nanosecond t1 / 1000) by lia.
Qed.

Lemma timestamps_sort_by_time_witness :
  bytes_ltb (formatDate_buf release_time) (formatDate_buf (mkTime 2024 3 7 9 6 0 5)) = true /\
  (formatDate_buf release_time = formatDate_buf (mkTime 2024 3 7 9 5 59 123456000) <->
   to_micros release_time = to_micros (mkTime 2024 3 7 9 5 59 123456000)).
Proof.
  destruct (timestamps_sort_by_time release_time (mkTime 2024 3 7 9 6 0 5))
    as [Hlt _];
    [ exact release_time_wf | unfold wf_time; simpl; lia
    | unfold release_time; simpl; lia | simpl; lia | ].
  destruct (timestamps_sort_by_time release_time (mkTime 2024 3 7 9 5 59 123456000))
    as [_ Heq];
    [ exact release_time_wf | unfold wf_time; simpl; lia
    | unfold release_time; simpl; lia | simpl; lia | ].
  split; [ rewrite Hlt; reflexivity | exact Heq ].
Defined.
